(** * The Cockroach Labs author-page scraper (scripts/scrape-crl-posts.py)

    A shallow embedding of the scraper's extraction pipeline and the
    properties its specification states about it.

    Conventions of the model.
    - A Python [str] is a [string]; each character stands for one code point
      in the range U+0000..U+00FF, so [String.length] counts code points and
      [lower], [is_space] are Python's [str.lower] and [str.isspace] on that
      range.
    - A Python [int] is a [Z].
    - [Optional[T]] is [option T]; a [dict] is a [gmap]; a [set] is a [gset].
    - Code that may raise runs in the [result] monad below; [try]/[except]
      is a [match] on the result.
    - The parsed document is a tree of [node]s, as BeautifulSoup presents it:
      [find_all] walks the descendants in document order.
    - The server is the sequence of replies that successive requests meet;
      the retry policy is urllib3's, the redirect loop is that of requests. *)

From Stdlib Require Import ZArith Ascii String List DecimalString.
From Stdlib Require QArith.
From stdpp Require Import base option list gmap strings sorting.

Local Open Scope string_scope.
Local Open Scope Z_scope.

(* ===================================================================== *)
(** * Python strings *)
(* ===================================================================== *)

Module PyStr.

Definition code (c : ascii) : N := N_of_ascii c.

(** [str.isspace] on one code point (also the regular expression class
    [\s] for text patterns). *)
Definition is_space (c : ascii) : bool :=
  let n := code c in
  ((9 <=? n) && (n <=? 13) || (28 <=? n) && (n <=? 32)
   || (n =? 133) || (n =? 160))%N.

(** [\d] on one code point. *)
Definition is_digit (c : ascii) : bool :=
  let n := code c in ((48 <=? n) && (n <=? 57))%N.

Definition digit_val (c : ascii) : Z := Z.of_N (code c) - 48.

(** [str.lower] on one code point. *)
Definition lower_char (c : ascii) : ascii :=
  let n := code c in
  if ((65 <=? n) && (n <=? 90)
      || (192 <=? n) && (n <=? 222) && negb (n =? 215))%N
  then ascii_of_N (n + 32) else c.

Fixpoint lower (s : string) : string :=
  match s with
  | "" => ""
  | String c s' => String (lower_char c) (lower s')
  end.

(** [s.startswith(p)] *)
Fixpoint startswith (p s : string) : bool :=
  match p, s with
  | "", _ => true
  | String a p', String b s' => if Ascii.eqb a b then startswith p' s' else false
  | String _ _, "" => false
  end.

(** [k in s] for strings: [k] occurs as a substring of [s]. *)
Fixpoint contains (k s : string) : bool :=
  startswith k s ||
  match s with
  | "" => false
  | String _ s' => contains k s'
  end.

Fixpoint lstrip (s : string) : string :=
  match s with
  | "" => ""
  | String c s' => if is_space c then lstrip s' else s
  end.

Fixpoint rstrip (s : string) : string :=
  match s with
  | "" => ""
  | String c s' =>
      match rstrip s' with
      | "" => if is_space c then "" else String c ""
      | r => String c r
      end
  end.

(** [s.strip()] *)
Definition strip (s : string) : string := rstrip (lstrip s).

(** [s[:n]] for [n >= 0] *)
Fixpoint take (n : nat) (s : string) : string :=
  match n, s with
  | O, _ => ""
  | S _, "" => ""
  | S n', String c s' => String c (take n' s')
  end.

(** [sep.join(l)] *)
Fixpoint join (sep : string) (l : list string) : string :=
  match l with
  | [] => ""
  | [x] => x
  | x :: l' => x ++ sep ++ join sep l'
  end.

(** [s.split()]: the maximal runs of non-whitespace characters. *)
Fixpoint split_go (cur : option string) (s : string) : list string :=
  match s with
  | "" => option_list cur
  | String c s' =>
      if is_space c then option_list cur ++ split_go None s'
      else split_go (Some (from_option (fun w => w ++ String c "") (String c "") cur)) s'
  end.
Definition split (s : string) : list string := split_go None s.

End PyStr.

(* ===================================================================== *)
(** * Exceptions *)
(* ===================================================================== *)

Inductive exn : Type :=
  | ValueError
  | KeyError
  | HTTPError (status : Z)
  | RetryError
  | ConnectionError
  | IOError
  | RuntimeError
  | ReadTimeout
  | InvalidHeader
  | TooManyRedirects
  | ParserRejectedMarkup.

Definition result (A : Type) : Type := exn + A.

#[global] Instance result_ret : MRet result := fun A a => inr a.
#[global] Instance result_bind : MBind result := fun A B k m =>
  match m with
  | inl e => inl e
  | inr a => k a
  end.
Definition raise {A} (e : exn) : result A := inl e.

(* ===================================================================== *)
(** * Configuration constants *)
(* ===================================================================== *)

Definition AUTHOR_URL : string := "https://www.cockroachlabs.com/author/andy-woods/".
Definition OUTPUT_PATH : string := "src/data/crl-posts.ts".
Definition DATE_FORMATS : list string :=
  ["%B %d, %Y"; "%b %d, %Y"; "%Y-%m-%d"; "%m/%d/%Y"].
Definition EXCERPT_MAX_LENGTH : nat := 200.
Definition REQUEST_TIMEOUT : Z := 30.
Definition MAX_RETRIES : Z := 3.
Definition RETRY_BACKOFF_FACTOR : Z := 1.
Definition DEFAULT_TAGS : gset string := {["databases"]}.
Definition SITE_ORIGIN : string := "https://www.cockroachlabs.com".

(* ===================================================================== *)
(** * [datetime.strptime] and [strftime] for the directives of DATE_FORMATS *)
(* ===================================================================== *)

(** [_strptime] turns the format into a regular expression (a named group
    per directive, [\s+] for every run of whitespace, the other characters
    literally), compiles it with IGNORECASE, and takes the first match from
    the start of the text in the backtracking order of [re.match].  Any failure is a
    ValueError.  Only the directives that DATE_FORMATS uses are given a
    regular expression here; month names are those of the C/English locale. *)

Module Strptime.
Import PyStr.

Inductive regex : Type :=
  | Fail
  | Class (p : ascii → bool)
  | Word (w : string)
  | Cat (a b : regex)
  | Alt (a b : regex)
  | Spaces.

Definition alts (l : list regex) : regex := foldr Alt Fail l.
Definition range (lo hi : ascii) : regex :=
  Class (fun c => (code lo <=? code c)%N && (code c <=? code hi)%N).
Definition chr (a : ascii) : regex := Word (String a "").
Definition digit : regex := Class is_digit.

(** A literal under IGNORECASE: [Some (consumed, rest)]. *)
Fixpoint word_match (w s : string) : option (string * string) :=
  match w, s with
  | "", _ => Some ("", s)
  | String a w', String b s' =>
      if Ascii.eqb (lower_char a) (lower_char b)
      then '(c, r) ← word_match w' s'; Some (String b c, r)
      else None
  | String _ _, "" => None
  end.

(** [\s+], greedy: the rests after the longest run first. *)
Fixpoint spaces_match (s : string) : list (string * string) :=
  match s with
  | String c s' =>
      if is_space c
      then ((fun '(w, r) => (String c w, r)) <$> spaces_match s') ++ [(String c "", s')]
      else []
  | "" => []
  end.

(** All ways [r] matches a prefix of [s], as (consumed, rest), in the
    order a backtracking matcher tries them. *)
Fixpoint rmatch (r : regex) (s : string) : list (string * string) :=
  match r with
  | Fail => []
  | Class p =>
      match s with
      | String c s' => if p c then [(String c "", s')] else []
      | "" => []
      end
  | Word w => option_list (word_match w s)
  | Cat a b =>
      '(c1, r1) ← rmatch a s; '(c2, r2) ← rmatch b r1; [(c1 ++ c2, r2)]
  | Alt a b => rmatch a s ++ rmatch b s
  | Spaces => spaces_match s
  end.

(** [LocaleTime.f_month] and [a_month], lower-cased, index 0 unused. *)
Definition f_month : list string :=
  [""; "january"; "february"; "march"; "april"; "may"; "june"; "july";
   "august"; "september"; "october"; "november"; "december"].
Definition a_month : list string :=
  [""; "jan"; "feb"; "mar"; "apr"; "may"; "jun"; "jul"; "aug"; "sep";
   "oct"; "nov"; "dec"].

(** [sorted(to_convert, key=len, reverse=True)]: a stable sort, longest
    first. *)
Fixpoint insert_by_length (x : string) (l : list string) : list string :=
  match l with
  | [] => [x]
  | y :: l' =>
      if (String.length y <? String.length x)%nat then x :: l
      else y :: insert_by_length x l'
  end.
Definition by_length_desc (l : list string) : list string :=
  foldl (fun acc x => insert_by_length x acc) [] l.

(** [TimeRE.__seqToRE] *)
Definition seqToRE (names : list string) : regex :=
  alts (Word <$> by_length_desc names).

(** The regular expression of a directive, with its group name. *)
Definition directive (d : ascii) : option regex :=
  if Ascii.eqb d "d" then
    Some (alts [Cat (chr "3") (range "0" "1"); Cat (range "1" "2") digit;
                Cat (chr "0") (range "1" "9"); range "1" "9";
                Cat (chr " ") (range "1" "9")])
  else if Ascii.eqb d "m" then
    Some (alts [Cat (chr "1") (range "0" "2"); Cat (chr "0") (range "1" "9");
                range "1" "9"])
  else if Ascii.eqb d "Y" then Some (Cat digit (Cat digit (Cat digit digit)))
  else if Ascii.eqb d "B" then Some (seqToRE (tail f_month))
  else if Ascii.eqb d "b" then Some (seqToRE (tail a_month))
  else None.

(** One piece of the compiled pattern: a named group or an anonymous
    piece. *)
Definition item : Type := option string * regex.

(** [TimeRE.pattern]: [in_ws] is set inside a run of whitespace, which
    becomes a single [\s+]. *)
Fixpoint pattern (in_ws : bool) (fmt : string) : result (list item) :=
  match fmt with
  | "" => mret []
  | String c fmt' =>
      if Ascii.eqb c "%" then
        match fmt' with
        | "" => raise ValueError
        | String d fmt'' =>
            if Ascii.eqb d "%"
            then its ← pattern false fmt''; mret ((None, chr "%") :: its)
            else match directive d with
                 | Some r =>
                     its ← pattern false fmt'';
                     mret ((Some (String d ""), r) :: its)
                 | None => raise ValueError
                 end
        end
      else if is_space c then
        if in_ws then pattern true fmt'
        else its ← pattern true fmt'; mret ((None, Spaces) :: its)
      else its ← pattern false fmt'; mret ((None, chr c) :: its)
  end.

(** The matches of the whole pattern with their group dictionaries, in
    backtracking order: (groupdict, rest of the text). *)
Fixpoint run (its : list item) (s : string) (d : gmap string string)
  : list (gmap string string * string) :=
  match its with
  | [] => [(d, s)]
  | (g, r) :: its' =>
      '(c, rest) ← rmatch r s;
      run its' rest (match g with Some k => <[k := c]> d | None => d end)
  end.

(** [int(text)] for an optional blank followed by decimal digits. *)
Definition int (s : string) : Z :=
  let fix go (acc : Z) (s : string) : Z :=
    match s with
    | "" => acc
    | String c s' => go (10 * acc + digit_val c) s'
    end in
  go 0 (strip s).

(** [list.index]; raises ValueError when the element is not there. *)
Fixpoint index (x : string) (l : list string) : result Z :=
  match l with
  | [] => raise ValueError
  | y :: l' => if String.eqb x y then mret 0 else i ← index x l'; mret (i + 1)
  end.

Record date : Type := Date { year : Z; month : Z; day : Z }.

Definition is_leap (y : Z) : bool :=
  (y mod 4 =? 0) && (negb (y mod 100 =? 0) || (y mod 400 =? 0)).

Definition days_in_month (y m : Z) : Z :=
  if m =? 2 then (if is_leap y then 29 else 28)
  else if (m =? 4) || (m =? 6) || (m =? 9) || (m =? 11) then 30
  else 31.

(** [datetime.date(year, month, day)] *)
Definition make_date (y m d : Z) : result date :=
  if (1 <=? y) && (y <=? 9999) && (1 <=? m) && (m <=? 12)
     && (1 <=? d) && (d <=? days_in_month y m)
  then mret (Date y m d) else raise ValueError.

Definition group_or {A} (d : gmap string string) (k : string)
    (f : string → result A) (dflt : A) : result A :=
  match d !! k with
  | Some v => f v
  | None => mret dflt
  end.

(** [datetime.strptime(data_string, format)] *)
Definition strptime (data_string format : string) : result date :=
  its ← pattern false format;
  match run its data_string ∅ with
  | [] => raise ValueError
  | (found, rest) :: _ =>
      if negb (String.eqb rest "") then raise ValueError
      else
        y ← group_or found "Y" (fun v => mret (int v)) 1900;
        m ← group_or found "m" (fun v => mret (int v)) 1;
        m ← group_or found "B" (fun v => index (lower v) f_month) m;
        m ← group_or found "b" (fun v => index (lower v) a_month) m;
        d ← group_or found "d" (fun v => mret (int v)) 1;
        make_date y m d
  end.

Definition digit_char (n : Z) : ascii := ascii_of_N (Z.to_N (48 + n mod 10)).

(** A number zero-padded to [w] digits. *)
Fixpoint zfill (w : nat) (n : Z) : string :=
  match w with
  | O => ""
  | S w' => zfill w' (n / 10) ++ String (digit_char n) ""
  end.

(** The decimal digits of a number, without padding. *)
Definition decimal (n : Z) : string :=
  NilZero.string_of_uint (N.to_uint (Z.to_N n)).

(** [d.strftime("%Y-%m-%d")].  The directives are the C library's: [%m]
    and [%d] are written with two digits, [%Y] is the year as a decimal
    number and glibc does not pad it, so a year below 1000 comes out with
    fewer than four digits. *)
Definition strftime_iso (d : date) : string :=
  decimal (year d) ++ "-" ++ zfill 2 (month d) ++ "-" ++ zfill 2 (day d).

End Strptime.

(* ===================================================================== *)
(** * parse_date *)
(* ===================================================================== *)

(** The loop over DATE_FORMATS: the first format that parses wins; a
    ValueError moves on to the next format, any other exception
    propagates. *)
Fixpoint parse_date_loop (date_str : string) (fmts : list string)
  : result (option string) :=
  match fmts with
  | [] => mret None
  | fmt :: fmts' =>
      match Strptime.strptime date_str fmt with
      | inr d => mret (Some (Strptime.strftime_iso d))
      | inl ValueError => parse_date_loop date_str fmts'
      | inl e => raise e
      end
  end.

Definition parse_date (date_str : string) : result (option string) :=
  let date_str := PyStr.strip date_str in
  parse_date_loop date_str DATE_FORMATS.

(* ===================================================================== *)
(** * The parsed document *)
(* ===================================================================== *)

(** A BeautifulSoup tree: text nodes and elements with an attribute
    dictionary.  The value of [class] is kept as written; [class_tokens]
    gives the list of class names BeautifulSoup stores for it. *)
#[warnings="-register-all"]
Inductive node : Type :=
  | NavigableString (text : string)
  | Tag (name : string) (attrs : gmap string string) (contents : list node).

Module Soup.
Import PyStr.

(** [tag.descendants]: every node below [n], in document order. *)
Fixpoint descendants (n : node) : list node :=
  match n with
  | NavigableString _ => []
  | Tag _ _ cs => flat_map (fun c => c :: descendants c) cs
  end.

Definition has_name (nm : string) (n : node) : bool :=
  match n with
  | Tag nm' _ _ => String.eqb nm' nm
  | NavigableString _ => false
  end.

Definition get (k : string) (n : node) : option string :=
  match n with
  | Tag _ a _ => a !! k
  | NavigableString _ => None
  end.

(** [k in tag.attrs] *)
Definition has_attr (k : string) (n : node) : bool := bool_decide (is_Some (get k n)).

(** [tag[k]] *)
Definition getitem (k : string) (n : node) : result string :=
  match get k n with
  | Some v => mret v
  | None => raise KeyError
  end.

(** [re.compile("k1|k2|...").search(s)] for literal alternatives. *)
Definition search (alternatives : list string) (s : string) : bool :=
  existsb (fun k => contains k s) alternatives.

Definition class_tokens (n : node) : option (list string) := split <$> get "class" n.

(** The filter [class_=re.compile(...)]: some class name matches, or
    the class names joined by single blanks do. *)
Definition class_matches (alternatives : list string) (n : node) : bool :=
  match class_tokens n with
  | Some toks =>
      existsb (search alternatives) toks || search alternatives (join " " toks)
  | None => false
  end.

(** [tag.find_all(...)] with the element filter [p]. *)
Definition find_all (p : node → bool) (n : node) : list node :=
  List.filter p (descendants n).

(** [tag.find(...)] *)
Definition find (p : node → bool) (n : node) : option node :=
  head (find_all p n).

(** [tag.get_text(strip=True)]: the text nodes below [n], each stripped,
    the empty ones dropped, concatenated. *)
Definition stripped_strings (n : node) : list string :=
  omap (fun d =>
          match d with
          | NavigableString t =>
              let t := strip t in if String.eqb t "" then None else Some t
          | Tag _ _ _ => None
          end) (descendants n).
Definition get_text (n : node) : string := join "" (stripped_strings n).

End Soup.

(** [a or b] where the operands are an element or None (an element is
    always true). *)
Definition py_or {A} (a b : option A) : option A :=
  match a with
  | Some x => Some x
  | None => b
  end.

(* ===================================================================== *)
(** * BlogPost *)
(* ===================================================================== *)

Record BlogPost : Type := mkBlogPost {
  title : string;
  url : string;
  date : option string;
  image : option string;
  excerpt : string;
  tags : list string
}.

(** [BlogPost.__init__] *)
Definition BlogPost_init (title url : string) (date image : option string)
    (excerpt : string) (tags : list string) : BlogPost :=
  {| title := title;
     url := url;
     date := date;
     image := image;
     excerpt := if String.eqb excerpt "" then "" else PyStr.take EXCERPT_MAX_LENGTH excerpt;
     tags := match tags with [] => elements DEFAULT_TAGS | _ => tags end |}.

(* ===================================================================== *)
(** * extract_tags *)
(* ===================================================================== *)

(** The dictionary literal, in insertion order. *)
Definition tag_keywords : list (string * list string) :=
  [("distributed-systems", ["distributed"; "multi-region"; "geo-distributed"; "replication"]);
   ("reliability", ["reliability"; "resilience"; "failover"; "uptime"]);
   ("disaster-recovery", ["disaster recovery"; "backup"; "restore"; "recovery"]);
   ("product-management", ["product"; "pricing"; "packaging"; "strategy"]);
   ("pricing", ["pricing"; "cost"; "billing"]);
   ("cloud", ["cloud"; "aws"; "gcp"; "azure"]);
   ("security", ["security"; "authentication"; "encryption"]);
   ("performance", ["performance"; "optimization"; "latency"]);
   ("migration", ["migration"; "migrate"; "migrating"]);
   ("architecture", ["architecture"; "design"; "pattern"])].

(** One turn of the loop over [tag_keywords.items()]. *)
Definition add_tag (combined_text : string) (tags : gset string)
    (entry : string * list string) : gset string :=
  if existsb (fun keyword => PyStr.contains keyword combined_text) entry.2
  then {[entry.1]} ∪ tags else tags.

Definition extract_tags (card : node) (title excerpt : string) : list string :=
  let tags := DEFAULT_TAGS in
  let combined_text := PyStr.lower (title ++ " " ++ excerpt) in
  let tags := foldl (add_tag combined_text) tags tag_keywords in
  merge_sort String.le (elements tags).

(* ===================================================================== *)
(** * extract_post_data *)
(* ===================================================================== *)

(** Convert relative URLs to absolute. *)
Definition absolute_url (url : string) : string :=
  if negb (PyStr.startswith "http" url) then SITE_ORIGIN ++ url else url.

Definition absolute_image (image_url : string) : string :=
  if negb (String.eqb image_url "") && negb (PyStr.startswith "http" image_url)
  then SITE_ORIGIN ++ image_url else image_url.

Definition title_elem (card : node) : option node :=
  py_or (Soup.find (Soup.has_name "h2") card)
    (py_or (Soup.find (Soup.has_name "h3") card) (Soup.find (Soup.has_name "a") card)).

Definition link_elem (card : node) : option node :=
  Soup.find (fun n => Soup.has_name "a" n && Soup.has_attr "href" n) card.

Definition excerpt_elem (card : node) : option node :=
  py_or (Soup.find (Soup.has_name "p") card)
    (Soup.find (fun n => Soup.has_name "div" n
                         && Soup.class_matches ["excerpt"; "description"; "summary"] n) card).

Definition date_elem (card : node) : option node :=
  py_or (Soup.find (Soup.has_name "time") card)
    (Soup.find (fun n => Soup.has_name "span" n && Soup.class_matches ["date"] n) card).

(** The body of the [try] block. *)
Definition extract_post_data_body (card : node) : result (option BlogPost) :=
  match title_elem card with
  | None => mret None
  | Some title_elem =>
      let title := Soup.get_text title_elem in
      match link_elem card with
      | None => mret None
      | Some link_elem =>
          url ← Soup.getitem "href" link_elem;
          let url := absolute_url url in
          let img_elem := Soup.find (Soup.has_name "img") card in
          image_url ←
            match img_elem with
            | Some img_elem =>
                if Soup.has_attr "src" img_elem
                then image_url ← Soup.getitem "src" img_elem;
                     mret (Some (absolute_image image_url))
                else mret None
            | None => mret None
            end;
          let excerpt :=
            match excerpt_elem card with
            | Some e => Soup.get_text e
            | None => ""
            end in
          let date_str := Soup.get_text <$> date_elem card in
          published_date ←
            match date_str with
            | Some ds => if String.eqb ds "" then mret None else parse_date ds
            | None => mret None
            end;
          let tags := extract_tags card title excerpt in
          mret (Some (BlogPost_init title url published_date image_url excerpt tags))
      end
  end.

(** [except Exception]: any error while extracting skips the card. *)
Definition extract_post_data (card : node) : option BlogPost :=
  match extract_post_data_body card with
  | inr post => post
  | inl _ => None
  end.

(* ===================================================================== *)
(** * What a run depends on *)
(* ===================================================================== *)

(** The markup parser [BeautifulSoup(..., "html.parser")], which may reject
    the markup; the serializer of the record list; the clock as the
    timestamp reads it; the seconds that the value of a Retry-After header
    asks to wait, a number of seconds or the time from the clock to a date,
    with an error for a value that is neither a number nor a date; and, of
    the redirect handling of requests, the decoding of a Location header
    and the preparation of the request for its target (the target resolved
    against the URL of the response, and an adapter found for it), each of
    which may raise. *)
Record Env : Type := mkEnv {
  html_parser : string → result node;
  json_dumps : list BlogPost → string;
  now : string;
  retry_after_seconds : string → result QArith_base.Q;
  decode_location : string → result string;
  prepare_redirect : string → result unit
}.

(** The files on disk and whether the output location can be written. *)
Record World : Type := mkWorld { files : gmap string string; writable : bool }.

(* ===================================================================== *)
(** * The HTTP session *)
(* ===================================================================== *)

(** A response: status, headers and body.  Header names are in lower
    case, as the header dictionaries of urllib3 and requests ignore their
    case. *)
Record Response : Type := mkResponse {
  status_code : Z;
  headers : gmap string string;
  content : string
}.

(** The ways in which a request is left without answer: the connection
    could not be made (urllib3's NewConnectionError and
    ConnectTimeoutError), no answer came in time once the request was sent
    (ReadTimeoutError), or the connection broke (ProtocolError). *)
Inductive failure : Type :=
  | ConnectError
  | ReadTimeoutError
  | ProtocolError.

(** What a request meets: an answer of the server, or a failure.  The
    server is the sequence of what successive requests meet. *)
Inductive reply : Type :=
  | Answer (response : Response)
  | Failure (error : failure).

(** A call of [time.sleep] between two attempts: the backoff of the retry
    policy, or the wait a Retry-After header asks for. *)
Inductive pause : Type :=
  | Backoff (seconds : Z)
  | RetryAfter (seconds : QArith_base.Q).

(** The part of urllib3's [Retry] and [urlopen] that acts on the retry
    policy handed to the transport adapter.  Of the counters of [Retry]
    only [total] is set; method names are upper case, as requests prepares
    them. *)
Module Urllib3.

Record Retry : Type := mkRetry {
  total : Z;
  backoff_factor : Z;
  status_forcelist : list Z;
  allowed_methods : list string;
  respect_retry_after_header : bool;
  history : nat
}.

Definition RETRY_AFTER_STATUS_CODES : list Z := [413; 429; 503].
Definition DEFAULT_BACKOFF_MAX : Z := 120.

(** What [urlopen] raises: MaxRetryError, whose reason is a ResponseError
    or the last failure; a failure raised again as it is; InvalidHeader for
    a Retry-After header that cannot be read. *)
Inductive error : Type :=
  | MaxRetryError_response
  | MaxRetryError_failure (reason : failure)
  | Reraised (reason : failure)
  | InvalidHeader_retry_after.

(** [Retry._is_read_error(err)] *)
Definition is_read_error (err : failure) : bool :=
  match err with
  | ReadTimeoutError | ProtocolError => true
  | ConnectError => false
  end.

(** [Retry._is_method_retryable(method)] *)
Definition is_method_retryable (r : Retry) (method : string) : bool :=
  match allowed_methods r with
  | [] => true
  | _ => bool_decide (method ∈ allowed_methods r)
  end.

(** [Retry.is_retry(method, status_code, has_retry_after)] *)
Definition is_retry (r : Retry) (method : string) (status : Z)
    (has_retry_after : bool) : bool :=
  if negb (is_method_retryable r method) then false
  else if negb (bool_decide (status_forcelist r = []))
          && bool_decide (status ∈ status_forcelist r) then true
  else negb (total r =? 0) && respect_retry_after_header r && has_retry_after
       && bool_decide (status ∈ RETRY_AFTER_STATUS_CODES).

(** [Retry.is_exhausted()] *)
Definition is_exhausted (r : Retry) : bool := total r <? 0.

(** [Retry.increment(method, url, response, error)]: one retry fewer and
    one more entry in the history.  A read error of a method that is not
    retried is raised again; MaxRetryError is raised when the count is used
    up. *)
Definition increment (r : Retry) (method : string) (err : option failure)
  : error + Retry :=
  let new_retry :=
    {| total := total r - 1; backoff_factor := backoff_factor r;
       status_forcelist := status_forcelist r;
       allowed_methods := allowed_methods r;
       respect_retry_after_header := respect_retry_after_header r;
       history := S (history r) |} in
  match err with
  | Some e =>
      if is_read_error e && negb (is_method_retryable r method)
      then inl (Reraised e)
      else if is_exhausted new_retry then inl (MaxRetryError_failure e)
      else inr new_retry
  | None =>
      if is_exhausted new_retry then inl MaxRetryError_response
      else inr new_retry
  end.

(** [Retry.get_backoff_time()] *)
Definition get_backoff_time (r : Retry) : Z :=
  if (history r <=? 1)%nat then 0
  else Z.min DEFAULT_BACKOFF_MAX (backoff_factor r * 2 ^ (Z.of_nat (history r) - 1)).

(** [Retry._sleep_backoff()] *)
Definition sleep_backoff (r : Retry) : list pause :=
  let backoff := get_backoff_time r in
  if backoff <=? 0 then [] else [Backoff backoff].

(** [bool(response.headers.get("Retry-After"))] *)
Definition has_retry_after (response : Response) : bool :=
  match headers response !! "retry-after" with
  | Some v => negb (String.eqb v "")
  | None => false
  end.

(** [Retry.get_retry_after(response)]: the seconds to wait, not below
    zero. *)
Definition get_retry_after (seconds_of : string → result QArith_base.Q)
    (response : Response) : result (option QArith_base.Q) :=
  match headers response !! "retry-after" with
  | None => mret None
  | Some v =>
      seconds ← seconds_of v;
      mret (Some (if QArith_base.Qle_bool (QArith_base.inject_Z 0) seconds
                  then seconds else QArith_base.inject_Z 0))
  end.

(** [Retry.sleep(response)]: the wait of the Retry-After header when the
    response has one that is not zero, the backoff otherwise. *)
Definition sleep (seconds_of : string → result QArith_base.Q) (r : Retry)
    (response : option Response) : result (list pause) :=
  match response with
  | Some response =>
      if respect_retry_after_header r then
        retry_after ← get_retry_after seconds_of response;
        match retry_after with
        | Some seconds =>
            if QArith_base.Qeq_bool seconds (QArith_base.inject_Z 0)
            then mret (sleep_backoff r)
            else mret [RetryAfter seconds]
        | None => mret (sleep_backoff r)
        end
      else mret (sleep_backoff r)
  | None => mret (sleep_backoff r)
  end.

(** [urlopen] with [redirect=False]: send request number [sent]; after a
    failure, or a response that [is_retry] accepts, count a retry, sleep
    and send again.  The result comes with the number of
    requests sent so far and the pauses made so far; [None] when [fuel]
    recursive calls were not enough. *)
Fixpoint urlopen (fuel : nat) (seconds_of : string → result QArith_base.Q)
    (server : nat → reply) (method : string) (retries : Retry) (sent : nat)
    (pauses : list pause) : option ((error + Response) * nat * list pause) :=
  match fuel with
  | O => None
  | S fuel' =>
      match server sent with
      | Failure err =>
          match increment retries method (Some err) with
          | inl e => Some (inl e, S sent, pauses)
          | inr retries' =>
              match sleep seconds_of retries' None with
              | inl _ => Some (inl InvalidHeader_retry_after, S sent, pauses)
              | inr slept =>
                  urlopen fuel' seconds_of server method retries' (S sent)
                    (pauses ++ slept)
              end
          end
      | Answer response =>
          if is_retry retries method (status_code response) (has_retry_after response)
          then match increment retries method None with
               | inl e => Some (inl e, S sent, pauses)
               | inr retries' =>
                   match sleep seconds_of retries' (Some response) with
                   | inl _ => Some (inl InvalidHeader_retry_after, S sent, pauses)
                   | inr slept =>
                       urlopen fuel' seconds_of server method retries' (S sent)
                         (pauses ++ slept)
                   end
               end
          else Some (inr response, S sent, pauses)
      end
  end.

Definition enough_fuel (r : Retry) : nat := Z.to_nat (total r) + 2.

End Urllib3.

Record Session : Type := mkSession { max_retries : Urllib3.Retry }.

Definition create_session_with_retries : Session :=
  let retry_strategy :=
    {| Urllib3.total := MAX_RETRIES;
       Urllib3.backoff_factor := RETRY_BACKOFF_FACTOR;
       Urllib3.status_forcelist := [500; 502; 503; 504];
       Urllib3.allowed_methods := ["GET"; "HEAD"];
       Urllib3.respect_retry_after_header := true;
       Urllib3.history := 0 |} in
  {| max_retries := retry_strategy |}.

(** What a fetch gave: the response or the exception, the number of
    requests sent and the pauses made. *)
Record Fetched : Type := mkFetched {
  outcome : result Response;
  requests_sent : nat;
  pauses : list pause
}.

(** [HTTPAdapter.send]: one request through [urlopen] with the retry
    policy of the adapter, the errors of urllib3 turned into those of
    requests ([ConnectionError] stands for the class and its subclasses
    ConnectTimeout and SSLError). *)
Definition adapter_send (env : Env) (session : Session) (server : nat → reply)
    (method : string) (sent : nat) (slept : list pause) : option Fetched :=
  '(r, n, ps) ← Urllib3.urlopen (Urllib3.enough_fuel (max_retries session))
                  (retry_after_seconds env) server method (max_retries session)
                  sent slept;
  Some {| outcome :=
            match r with
            | inr response => inr response
            | inl Urllib3.MaxRetryError_response => inl RetryError
            | inl (Urllib3.MaxRetryError_failure _) => inl ConnectionError
            | inl (Urllib3.Reraised ReadTimeoutError) => inl ReadTimeout
            | inl (Urllib3.Reraised _) => inl ConnectionError
            | inl Urllib3.InvalidHeader_retry_after => inl InvalidHeader
            end;
          requests_sent := n;
          pauses := ps |}.

Definition REDIRECT_STATI : list Z := [301; 302; 303; 307; 308].
Definition DEFAULT_REDIRECT_LIMIT : nat := 30.

(** [Response.is_redirect] *)
Definition is_redirect (response : Response) : bool :=
  bool_decide (is_Some (headers response !! "location"))
  && bool_decide (status_code response ∈ REDIRECT_STATI).

(** [Session.get_redirect_target(resp)] *)
Definition get_redirect_target (env : Env) (response : Response)
  : result (option string) :=
  if is_redirect response then
    match headers response !! "location" with
    | Some location => url ← decode_location env location; mret (Some url)
    | None => raise KeyError
    end
  else mret None.

(** [Session.resolve_redirects]: while the response is a redirect with a
    target, request the target, each request with the retry policy afresh;
    [left] is the number of redirects that may still be followed before
    TooManyRedirects. *)
Fixpoint resolve_redirects (left : nat) (env : Env) (session : Session)
    (server : nat → reply) (f : Fetched) : option Fetched :=
  let raised e :=
    {| outcome := inl e; requests_sent := requests_sent f; pauses := pauses f |} in
  match outcome f with
  | inl _ => Some f
  | inr response =>
      match get_redirect_target env response with
      | inl e => Some (raised e)
      | inr None => Some f
      | inr (Some url) =>
          if String.eqb url "" then Some f
          else match left with
               | O => Some (raised TooManyRedirects)
               | S left' =>
                   match prepare_redirect env url with
                   | inl e => Some (raised e)
                   | inr _ =>
                       f' ← adapter_send env session server "GET" (requests_sent f)
                              (pauses f);
                       resolve_redirects left' env session server f'
                   end
               end
      end
  end.

(** [session.get(url)] against [server]. *)
Definition session_get (env : Env) (session : Session) (server : nat → reply)
  : option Fetched :=
  f ← adapter_send env session server "GET" 0 [];
  resolve_redirects DEFAULT_REDIRECT_LIMIT env session server f.

(** [response.raise_for_status()] *)
Definition raise_for_status (response : Response) : result unit :=
  if (400 <=? status_code response) && (status_code response <? 600)
  then raise (HTTPError (status_code response)) else mret ().

(* ===================================================================== *)
(** * scrape_crl_author_page, the output file and main *)
(* ===================================================================== *)

(** Find all potential blog post containers. *)
Definition post_cards (soup : node) : list node :=
  match Soup.find_all (Soup.has_name "article") soup with
  | [] => Soup.find_all (fun n => Soup.has_name "div" n
                                  && Soup.class_matches ["post"; "article"; "card"] n) soup
  | articles => articles
  end.

(** The loop over the cards: [posts.append(post)] for every extracted
    post. *)
Definition scrape_loop (cards : list node) : list BlogPost :=
  foldl (fun posts card =>
           match extract_post_data card with
           | Some post => (posts ++ [post])%list
           | None => posts
           end) [] cards.

(** The fetch: [session.get] then [raise_for_status]; a failure is logged
    and raised again. *)
Definition fetch (fetched : result Response) : result Response :=
  response ← fetched;
  _ ← raise_for_status response;
  mret response.

Definition scrape_crl_author_page (env : Env) (fetched : result Response)
  : result (list BlogPost) :=
  response ← fetch fetched;
  soup ← html_parser env (content response);
  mret (scrape_loop (post_cards soup)).

Definition generate_typescript_file (env : Env) (posts : list BlogPost) : string :=
  "/** Auto-generated by scripts/scrape-crl-posts.py. Last updated: " ++ now env
  ++ " */ export const crlPosts: ExternalPost[] = " ++ json_dumps env posts ++ ";".

Definition write_output_file (content file_path : string) (w : World) : result World :=
  if writable w
  then mret {| files := <[file_path := content]> (files w); writable := writable w |}
  else raise IOError.

(** The body of the [try] block of [main]: the exit code and the world
    afterwards. *)
Definition main_body (env : Env) (fetched : result Response) (w : World)
  : result (Z * World) :=
  posts ← scrape_crl_author_page env fetched;
  match posts with
  | [] => mret (1, w)
  | _ =>
      let ts_content := generate_typescript_file env posts in
      w' ← write_output_file ts_content OUTPUT_PATH w;
      mret (0, w')
  end.

(** [main]: [fetched] is what [session.get] gave. *)
Definition main (env : Env) (fetched : result Response) (w : World) : Z * World :=
  match main_body env fetched w with
  | inr r => r
  | inl _ => (1, w)
  end.

(** A whole run against a server. *)
Definition run_against (env : Env) (server : nat → reply) (w : World)
  : option (Z * World) :=
  f ← session_get env create_session_with_retries server;
  Some (main env (outcome f) w).

(* ===================================================================== *)
(** * BlogPost.to_dict *)
(* ===================================================================== *)

(** The values that occur in the dictionary of a post. *)
Inductive json : Type :=
  | JString (s : string)
  | JNull
  | JList (l : list string).

Definition json_of_optional (o : option string) : json :=
  match o with
  | Some s => JString s
  | None => JNull
  end.

(** [BlogPost.to_dict]: the dictionary literal, its keys in the order in
    which they are written and serialized. *)
Definition to_dict (self : BlogPost) : list (string * json) :=
  [("title", JString (title self));
   ("url", JString (url self));
   ("date", json_of_optional (date self));
   ("image", json_of_optional (image self));
   ("excerpt", JString (excerpt self));
   ("source", JString "cockroach-labs");
   ("tags", JList (tags self))].

(* ===================================================================== *)
(** * Notions used by the statements *)
(* ===================================================================== *)

(** [r] has the shape YYYY-MM-DD and its three numbers are those of [d]. *)
Definition iso_format (r : string) (d : Strptime.date) : Prop :=
  ∃ Y M D : string,
    r = Y ++ "-" ++ M ++ "-" ++ D
    ∧ String.length Y = 4%nat ∧ String.length M = 2%nat ∧ String.length D = 2%nat
    ∧ Strptime.int Y = Strptime.year d
    ∧ Strptime.int M = Strptime.month d
    ∧ Strptime.int D = Strptime.day d.

(** [r] is a year of one to four digits, a two-digit month and a two-digit
    day, joined by hyphens, and the three numbers are those of [d]. *)
Definition ymd_format (r : string) (d : Strptime.date) : Prop :=
  ∃ Y M D : string,
    r = Y ++ "-" ++ M ++ "-" ++ D
    ∧ (1 ≤ String.length Y ≤ 4)%nat
    ∧ String.length M = 2%nat ∧ String.length D = 2%nat
    ∧ Strptime.int Y = Strptime.year d
    ∧ Strptime.int M = Strptime.month d
    ∧ Strptime.int D = Strptime.day d.

(** What the checks below ask of the decimal text of a year: one to four
    digits that read back as the year, four of them exactly from the year
    1000 on, where it is the zero-padded text. *)
Definition decimal_ok (y : Z) : bool :=
  let t := Strptime.decimal y in
  (1 <=? String.length t)%nat && (String.length t <=? 4)%nat
  && (Strptime.int t =? y)
  && Bool.eqb (String.length t =? 4)%nat (1000 <=? y)
  && (if 1000 <=? y then String.eqb t (Strptime.zfill 4 y) else true)
  && match t with
     | String c _ => PyStr.is_digit c
     | "" => false
     end.

(** [zfill w n] has [w] characters and reads back as [n]. *)
Definition zfill_ok (w : nat) (n : Z) : bool :=
  (String.length (Strptime.zfill w n) =? w)%nat
  && (Strptime.int (Strptime.zfill w n) =? n).

(** The word that [split_go] is in the middle of. *)
Definition in_progress (cur : option string) : string := default "" cur.

(** The text parses as a date [d] under the format [fmt]. *)
Definition parses_as (text fmt : string) (d : Strptime.date) : Prop :=
  Strptime.strptime (PyStr.strip text) fmt = inr d.

(** What [extract_post_data] reads off a card for the optional fields. *)
Definition image_src (card : node) : option string :=
  img_elem ← Soup.find (Soup.has_name "img") card; Soup.get "src" img_elem.

Definition excerpt_text (card : node) : string :=
  match excerpt_elem card with
  | Some e => Soup.get_text e
  | None => ""
  end.

Definition published_date (card : node) : option string :=
  match Soup.get_text <$> date_elem card with
  | Some ds =>
      if String.eqb ds "" then None
      else match parse_date ds with inr r => r | inl _ => None end
  | None => None
  end.



(** Sample cards and texts. *)
Definition long_text : string :=
  PyStr.join "" (replicate 25 "0123456789").

Definition sample_card : node :=
  Tag "article" ∅
    [Tag "h2" ∅ [NavigableString "  Multi-region replication deep dive "];
     Tag "a" {[ "href" := "/blog/x" ]} [Tag "img" {[ "src" := "/img/x.png" ]} []];
     Tag "p" ∅ [NavigableString long_text];
     Tag "time" ∅ [NavigableString "Jan 15, 2024"]].

Definition absolute_card : node :=
  Tag "article" ∅
    [Tag "h3" ∅ [NavigableString "Pricing"];
     Tag "a" {[ "href" := "https://example.org/post" ]}
       [Tag "img" {[ "src" := "http://example.org/i.png" ]} []]].

(** A link that wraps an image and carries no text. *)
Definition untitled_card : node :=
  Tag "div" {[ "class" := "card" ]}
    [Tag "a" {[ "href" := "/blog/x" ]} [Tag "img" {[ "src" := "" ]} []]].

Definition no_link_card : node :=
  Tag "div" {[ "class" := "blog-post" ]} [Tag "h2" ∅ [NavigableString "Title"]].

(** [k] occurs in [s]: [s] is some text, then [k], then some text. *)
Definition substr (k s : string) : Prop := ∃ a b : string, s = a ++ k ++ b.

(** No character of [s] is whitespace. *)
Fixpoint spacefree (s : string) : bool :=
  match s with
  | "" => true
  | String c s' => negb (PyStr.is_space c) && spacefree s'
  end.

(** The class attribute, as written in the markup, has one of the
    keywords as a substring. *)
Definition class_has_substring (keywords : list string) (n : node) : bool :=
  match Soup.get "class" n with
  | Some c => existsb (fun k => PyStr.contains k c) keywords
  | None => false
  end.

(** Sample pages and servers. *)
Definition article_page : node :=
  Tag "[document]" ∅
    [Tag "div" {[ "class" := "post-list" ]}
       [sample_card; Tag "article" ∅ [NavigableString "no title here"]; absolute_card]].

Definition div_page : node :=
  Tag "[document]" ∅
    [Tag "div" {[ "class" := "Post Card" ]} [Tag "a" {[ "href" := "/a" ]} []];
     untitled_card;
     Tag "div" {[ "class" := "x blog-post" ]} [];
     Tag "span" {[ "class" := "card" ]} []].

Definition always (status : Z) : nat → reply :=
  fun _ => Answer (mkResponse status ∅ "").















(** The text the classifier searches: title, a blank, excerpt, lower-cased. *)
Definition combined_text (title excerpt : string) : string :=
  PyStr.lower (title ++ " " ++ excerpt).

(** The labels of the keyword table. *)
Definition tag_labels : list string := tag_keywords.*1.

(** Every character of [s] is whitespace. *)
Fixpoint all_space (s : string) : bool :=
  match s with
  | "" => true
  | String c s' => PyStr.is_space c && all_space s'
  end.

(** A date of the calendar: the condition under which [datetime.date]
    accepts year, month and day. *)
Definition valid_date (d : Strptime.date) : Prop :=
  1 ≤ Strptime.year d ≤ 9999 ∧ 1 ≤ Strptime.month d ≤ 12
  ∧ 1 ≤ Strptime.day d ≤ Strptime.days_in_month (Strptime.year d) (Strptime.month d).

(** [Strptime.run] with the groups collected as a list, oldest first,
    instead of put into the dictionary at once. *)
Fixpoint run_binds (its : list Strptime.item) (s : string)
  : list (list (string * string) * string) :=
  match its with
  | [] => [([], s)]
  | (g, r) :: its' =>
      '(c, rest) ← Strptime.rmatch r s;
      '(bs, out) ← run_binds its' rest;
      [(match g with Some k => (k, c) :: bs | None => bs end, out)]
  end.

Definition put_all (d : gmap string string) (bs : list (string * string))
  : gmap string string :=
  foldl (fun d '(k, v) => <[k := v]> d) d bs.

(** The compiled pattern of a format of DATE_FORMATS. *)
Definition items_of (fmt : string) : list Strptime.item :=
  match Strptime.pattern false fmt with
  | inr its => its
  | inl _ => []
  end.

(** The pattern of "%Y-%m-%d" after its year. *)
Definition year_re : Strptime.regex :=
  Strptime.Cat Strptime.digit
    (Strptime.Cat Strptime.digit (Strptime.Cat Strptime.digit Strptime.digit)).

Definition iso_items_rest : list Strptime.item :=
  match Strptime.pattern false "-%m-%d" with
  | inr its => its
  | inl _ => []
  end.

(** On the text "-MM-DD" the rest of the ISO pattern first matches all of
    it, with MM as the month and DD as the day. *)
Definition iso_rest_ok (md : Z * Z) : bool :=
  let M := Strptime.zfill 2 md.1 in
  let D := Strptime.zfill 2 md.2 in
  bool_decide (head (run_binds iso_items_rest ("-" ++ M ++ "-" ++ D))
               = Some ([("m", M); ("d", D)], "")).

(** A card whose excerpt mentions a keyword only after its first 200
    characters. *)
Definition late_keyword_card : node :=
  Tag "article" ∅
    [Tag "h2" ∅ [NavigableString "Notes"];
     Tag "a" {[ "href" := "/blog/notes" ]} [];
     Tag "p" ∅ [NavigableString (long_text ++ " cloud")]].

(** [s] has no whitespace at either end. *)
Definition tidy (s : string) : Prop :=
  match s with
  | "" => True
  | String c _ => PyStr.is_space c = false
  end ∧ PyStr.rstrip s = s.

(* ===================================================================== *)
(** * Facts about the Python string operations *)
(* ===================================================================== *)

Section PyStrFacts.
Import PyStr.

Lemma length_take (n : nat) (s : string) :
  String.length (take n s) = Nat.min n (String.length s).
Proof.
  revert s; induction n as [|n IH]; intros [|c s]; simpl; auto.
Qed.

Lemma take_all (n : nat) (s : string) :
  (String.length s ≤ n)%nat → take n s = s.
Proof.
  revert s; induction n as [|n IH]; intros [|c s]; simpl; intros Hl;
    try reflexivity; try lia.
  f_equal. apply IH. lia.
Qed.

Lemma take_substring (n : nat) (s : string) : take n s = substring 0 n s.
Proof.
  revert s; induction n as [|n IH]; intros [|c s]; simpl; auto.
  by rewrite IH.
Qed.

Lemma startswith_app (p s : string) : startswith p (p ++ s) = true.
Proof.
  induction p as [|a p IH]; simpl; [reflexivity|].
  rewrite Ascii.eqb_refl. exact IH.
Qed.

Lemma startswith_trans (p q s : string) :
  startswith p q = true → startswith q s = true → startswith p s = true.
Proof.
  revert q s; induction p as [|a p IH]; intros [|b q] [|c s]; simpl;
    try congruence.
  destruct (Ascii.eqb a b) eqn:Hab; [|congruence].
  destruct (Ascii.eqb b c) eqn:Hbc; [|congruence].
  apply Ascii.eqb_eq in Hab, Hbc. subst. rewrite Ascii.eqb_refl.
  apply IH.
Qed.

End PyStrFacts.

(* ===================================================================== *)
(** * parse_date never raises *)
(* ===================================================================== *)

Lemma bind_inl {A B} (m : result A) (k : A → result B) (e : exn) :
  m ≫= k = inl e → m = inl e ∨ ∃ a, m = inr a ∧ k a = inl e.
Proof. destruct m as [e'|a]; cbn; [intros [= <-]; by left|right; eauto]. Qed.

Lemma bind_inr {A B} (m : result A) (k : A → result B) (b : B) :
  m ≫= k = inr b → ∃ a, m = inr a ∧ k a = inr b.
Proof. destruct m as [e'|a]; cbn; [discriminate|eauto]. Qed.

Section DateFacts.
Import Strptime.

Lemma pattern_raises_bounded (n : nat) (b : bool) (fmt : string) (e : exn) :
  (String.length fmt ≤ n)%nat → pattern b fmt = inl e → e = ValueError.
Proof.
  revert b fmt. induction n as [|n IH]; intros b [|c fmt]; simpl;
    try discriminate; try lia.
  intros Hn.
  destruct (Ascii.eqb c "%").
  - destruct fmt as [|d fmt]; [by intros [= <-]|].
    simpl in Hn.
    destruct (Ascii.eqb d "%").
    + destruct (pattern false fmt) eqn:Hp; simpl; [|discriminate].
      intros [= <-]. apply (IH false fmt); [lia|done].
    + destruct (directive d); [|by intros [= <-]].
      destruct (pattern false fmt) eqn:Hp; simpl; [|discriminate].
      intros [= <-]. apply (IH false fmt); [lia|done].
  - destruct (PyStr.is_space c).
    + destruct b.
      * apply IH; lia.
      * destruct (pattern true fmt) eqn:Hp; simpl; [|discriminate].
        intros [= <-]. apply (IH true fmt); [lia|done].
    + destruct (pattern false fmt) eqn:Hp; simpl; [|discriminate].
      intros [= <-]. apply (IH false fmt); [lia|done].
Qed.

Lemma index_raises (x : string) (l : list string) (e : exn) :
  index x l = inl e → e = ValueError.
Proof.
  induction l as [|y l IH]; simpl; [by intros [= <-]|].
  destruct (String.eqb x y); [discriminate|].
  destruct (index x l); simpl; [|discriminate].
  intros [= <-]. by apply IH.
Qed.

Lemma make_date_raises (y m d : Z) (e : exn) :
  make_date y m d = inl e → e = ValueError.
Proof. unfold make_date. case_match; [discriminate|by intros [= <-]]. Qed.

Lemma group_or_raises {A} (g : gmap string string) (k : string)
    (f : string → result A) (dflt : A) (e : exn) :
  (∀ v e', f v = inl e' → e' = ValueError) →
  group_or g k f dflt = inl e → e = ValueError.
Proof. unfold group_or. intros Hf. destruct (g !! k); [apply Hf|discriminate]. Qed.

(** [strptime] raises nothing but ValueError. *)
Lemma strptime_raises (s fmt : string) (e : exn) :
  strptime s fmt = inl e → e = ValueError.
Proof.
  unfold strptime. intros H.
  apply bind_inl in H as [H|(its & _ & H)].
  { by eapply pattern_raises_bounded. }
  destruct (run its s ∅) as [|[found rest] _]; [by injection H as <-|].
  destruct (negb (rest =? "")%string); [by injection H as <-|].
  repeat (apply bind_inl in H as [H|(? & _ & H)];
          [ revert H; apply group_or_raises; intros ??;
            first [discriminate | apply index_raises] |]).
  revert H. apply make_date_raises.
Qed.

Lemma parse_date_loop_never_raises (s : string) (fmts : list string) :
  ∃ r, parse_date_loop s fmts = inr r.
Proof.
  induction fmts as [|fmt fmts IH]; simpl; [by eexists|].
  destruct (strptime s fmt) as [e|d] eqn:Hs; [|by eexists].
  apply strptime_raises in Hs as ->. exact IH.
Qed.

Lemma parse_date_never_raises (s : string) : ∃ r, parse_date s = inr r.
Proof. apply parse_date_loop_never_raises. Qed.

(** The loop returns the first format that parses. *)
Lemma parse_date_loop_first (s : string) (fmts : list string) (i : nat)
    (fmt : string) (d : date) :
  fmts !! i = Some fmt →
  strptime s fmt = inr d →
  (∀ j fmt', (j < i)%nat → fmts !! j = Some fmt' → ∃ e, strptime s fmt' = inl e) →
  parse_date_loop s fmts = inr (Some (strftime_iso d)).
Proof.
  revert i. induction fmts as [|f fmts IH]; intros [|i]; simpl; try done.
  - by intros [= ->] ->.
  - intros Hi Hd Hbefore.
    destruct (Hbefore 0%nat f) as [e He]; [lia|done|].
    rewrite He. apply strptime_raises in He as ->.
    apply (IH i); [done..|].
    intros j fmt' Hj Hl. apply (Hbefore (S j)); [lia|done].
Qed.

Lemma parse_date_loop_none (s : string) (fmts : list string) :
  (∀ fmt, fmt ∈ fmts → ∃ e, strptime s fmt = inl e) →
  parse_date_loop s fmts = inr None.
Proof.
  induction fmts as [|f fmts IH]; simpl; [done|].
  intros Hall. destruct (Hall f) as [e He]; [by left|].
  rewrite He. apply strptime_raises in He as ->.
  apply IH. intros fmt Hin. apply Hall. by right.
Qed.

(** Some format of the list parses: then an earliest one does. *)
Lemma first_parsing_format (s : string) (fmts : list string) :
  (∃ fmt d, fmt ∈ fmts ∧ strptime s fmt = inr d) →
  ∃ i fmt d, fmts !! i = Some fmt ∧ strptime s fmt = inr d ∧
    ∀ j fmt', (j < i)%nat → fmts !! j = Some fmt' → ∃ e, strptime s fmt' = inl e.
Proof.
  induction fmts as [|f fmts IH]; intros (fmt & d & Hin & Hd).
  { by apply elem_of_nil in Hin. }
  destruct (strptime s f) as [e|d'] eqn:Hf.
  - apply elem_of_cons in Hin as [->|Hin]; [congruence|].
    destruct IH as (i & fmt' & d' & Hi & Hd' & Hb); [by eauto|].
    exists (S i), fmt', d'. split_and!; [done..|].
    intros [|j] fmt'' Hj Hl; simpl in Hl.
    + injection Hl as <-. by eexists.
    + apply (Hb j); [lia|done].
  - exists 0%nat, f, d'. split_and!; [done..|]. intros; lia.
Qed.

End DateFacts.

Section DateShape.
Import Strptime.

Lemma make_date_inr (y m d : Z) (x : date) :
  make_date y m d = inr x →
  x = Date y m d ∧ 1 ≤ y ≤ 9999 ∧ 1 ≤ m ≤ 12 ∧ 1 ≤ d ≤ 31.
Proof.
  unfold make_date. case_match eqn:Hc; [|discriminate]. intros [= <-].
  repeat (apply andb_true_iff in Hc as [Hc ?]).
  assert (days_in_month y m ≤ 31).
  { unfold days_in_month. repeat case_match; lia. }
  split; [done|lia].
Qed.

Lemma strptime_valid (s fmt : string) (x : date) :
  strptime s fmt = inr x →
  1 ≤ year x ≤ 9999 ∧ 1 ≤ month x ≤ 12 ∧ 1 ≤ day x ≤ 31.
Proof.
  unfold strptime. intros H.
  apply bind_inr in H as (its & _ & H).
  destruct (run its s ∅) as [|[found rest] _]; [discriminate|].
  destruct (negb (rest =? "")%string); [discriminate|].
  repeat (apply bind_inr in H as (? & _ & H)).
  apply make_date_inr in H as (-> & ?). done.
Qed.

Lemma zfill4_ok (n : Z) : 1 ≤ n ≤ 9999 → zfill_ok 4 n = true.
Proof.
  intros Hn.
  assert (Hall : forallb (zfill_ok 4) (seqZ 1 9999) = true) by (vm_compute; reflexivity).
  rewrite forallb_forall in Hall. apply Hall.
  apply list_elem_of_In, elem_of_seqZ. lia.
Qed.

Lemma zfill2_ok (n : Z) : 1 ≤ n ≤ 31 → zfill_ok 2 n = true.
Proof.
  intros Hn.
  assert (Hall : forallb (zfill_ok 2) (seqZ 1 31) = true) by (vm_compute; reflexivity).
  rewrite forallb_forall in Hall. apply Hall.
  apply list_elem_of_In, elem_of_seqZ. lia.
Qed.

Lemma decimal_year (y : Z) : 1 ≤ y ≤ 9999 → decimal_ok y = true.
Proof.
  intros Hy.
  assert (Hall : forallb decimal_ok (seqZ 1 9999) = true) by (vm_compute; reflexivity).
  rewrite forallb_forall in Hall. apply Hall.
  apply list_elem_of_In, elem_of_seqZ. lia.
Qed.

Lemma decimal_year_facts (y : Z) :
  1 ≤ y ≤ 9999 →
  (1 ≤ String.length (decimal y) ≤ 4)%nat
  ∧ int (decimal y) = y
  ∧ (String.length (decimal y) = 4%nat ↔ 1000 ≤ y)
  ∧ (1000 ≤ y → decimal y = zfill 4 y)
  ∧ ∃ c rest, decimal y = String c rest ∧ PyStr.is_digit c = true.
Proof.
  intros Hy. pose proof (decimal_year y Hy) as Hok. unfold decimal_ok in Hok.
  repeat (apply andb_true_iff in Hok as [Hok ?]).
  apply Nat.leb_le in Hok.
  repeat match goal with
  | H : (_ <=? _)%nat = true |- _ => apply Nat.leb_le in H
  | H : (_ =? _) = true |- _ => apply Z.eqb_eq in H
  | H : Bool.eqb _ _ = true |- _ => apply Bool.eqb_prop in H
  end.
  split_and!; [done..| | |].
  - rewrite <- Nat.eqb_eq, <- Z.leb_le. by match goal with H : _ = (1000 <=? y) |- _ => rewrite H end.
  - intros H1000. apply Z.leb_le in H1000.
    match goal with H : (if 1000 <=? y then _ else _) = true |- _ =>
      rewrite H1000 in H; by apply String.eqb_eq in H end.
  - destruct (decimal y) as [|c rest]; [done|]. by exists c, rest.
Qed.

Lemma decimal_zfill4 (y : Z) : 1000 ≤ y ≤ 9999 → decimal y = zfill 4 y.
Proof.
  intros Hy. destruct (decimal_year_facts y) as (_ & _ & _ & H & _); [lia|].
  apply H. lia.
Qed.

Lemma strftime_ymd_format (d : date) :
  1 ≤ year d ≤ 9999 → 1 ≤ month d ≤ 12 → 1 ≤ day d ≤ 31 →
  ymd_format (strftime_iso d) d.
Proof.
  intros Hy Hm Hd.
  exists (decimal (year d)), (zfill 2 (month d)), (zfill 2 (day d)).
  destruct (decimal_year_facts (year d) Hy) as (Hlen & Hint & _).
  pose proof (zfill2_ok (month d) ltac:(lia)) as H2.
  pose proof (zfill2_ok (day d) Hd) as H2'.
  unfold zfill_ok in *.
  apply andb_true_iff in H2 as [?%Nat.eqb_eq ?%Z.eqb_eq].
  apply andb_true_iff in H2' as [?%Nat.eqb_eq ?%Z.eqb_eq].
  split; [done|]. split; [exact Hlen|]. split_and!; done.
Qed.

Lemma strftime_iso_format (d : date) :
  1000 ≤ year d ≤ 9999 → 1 ≤ month d ≤ 12 → 1 ≤ day d ≤ 31 →
  iso_format (strftime_iso d) d.
Proof.
  intros Hy Hm Hd.
  destruct (strftime_ymd_format d) as (Y & M & D & Hr & HlY & HlM & HlD & HY & HM & HD);
    [lia|done..|].
  exists (decimal (year d)), (zfill 2 (month d)), (zfill 2 (day d)).
  destruct (decimal_year_facts (year d)) as (_ & Hint & Hfour & _); [lia|].
  pose proof (zfill2_ok (month d) ltac:(lia)) as H2.
  pose proof (zfill2_ok (day d) Hd) as H2'.
  unfold zfill_ok in *.
  apply andb_true_iff in H2 as [?%Nat.eqb_eq ?%Z.eqb_eq].
  apply andb_true_iff in H2' as [?%Nat.eqb_eq ?%Z.eqb_eq].
  split_and!; try done. apply Hfour. lia.
Qed.

End DateShape.

(** C2. The code does not keep the claim for years below 1000: the text
    "0999-01-01" parses under the ISO format as 1 January 999, and
    [parse_date] returns "999-01-01", nine characters with a year of three
    digits, where the claim (and the docstring of the function) promise
    YYYY-MM-DD.  The four examples of the specification give the stated
    dates. *)
Theorem parse_date_year_below_1000 :
  parses_as "0999-01-01" "%Y-%m-%d" (Strptime.Date 999 1 1)
  ∧ parse_date "0999-01-01" = inr (Some "999-01-01")
  ∧ String.length "999-01-01" = 9%nat
  ∧ parse_date "January 15, 2024" = inr (Some "2024-01-15")
  ∧ parse_date "Jan 15, 2024" = inr (Some "2024-01-15")
  ∧ parse_date "2024-01-15" = inr (Some "2024-01-15")
  ∧ parse_date "01/02/2024" = inr (Some "2024-01-02").
Proof. split_and!; vm_compute; reflexivity. Qed.

(** X22. A text that parses under one of the four formats of DATE_FORMATS
    (full month name, abbreviated month name, ISO, slash-separated, in that
    order) is returned by [parse_date] as the date of the first format that
    parses it: the year in one to four digits, the month and the day in two,
    joined by hyphens; from the year 1000 on that is YYYY-MM-DD. *)
Theorem parse_date_supported_formats (text : string) :
  (∃ fmt d, fmt ∈ DATE_FORMATS ∧ parses_as text fmt d) →
  ∃ (i : nat) fmt d,
    DATE_FORMATS !! i = Some fmt
    ∧ parses_as text fmt d
    ∧ (∀ (j : nat) fmt', (j < i)%nat → DATE_FORMATS !! j = Some fmt' →
         Strptime.strptime (PyStr.strip text) fmt' = inl ValueError)
    ∧ parse_date text = inr (Some (Strptime.strftime_iso d))
    ∧ ymd_format (Strptime.strftime_iso d) d
    ∧ (1000 ≤ Strptime.year d → iso_format (Strptime.strftime_iso d) d).
Proof.
  intros Hsome. unfold parses_as in *.
  destruct (first_parsing_format _ _ Hsome) as (i & fmt & d & Hi & Hd & Hb).
  exists i, fmt, d. split_and!; try done.
  - intros j fmt' Hj Hl. destruct (Hb j fmt' Hj Hl) as [e He].
    by rewrite He, (strptime_raises _ _ _ He).
  - by apply (parse_date_loop_first _ _ i fmt).
  - apply strptime_valid in Hd as (? & ? & ?). by apply strftime_ymd_format.
  - intros Hy. apply strptime_valid in Hd as (? & ? & ?).
    apply strftime_iso_format; [lia|done..].
Qed.

Lemma parse_date_supported_formats_witness :
  ∃ (i : nat) fmt d,
    DATE_FORMATS !! i = Some fmt
    ∧ parses_as "01/02/2024" fmt d
    ∧ (∀ (j : nat) fmt', (j < i)%nat → DATE_FORMATS !! j = Some fmt' →
         Strptime.strptime (PyStr.strip "01/02/2024") fmt' = inl ValueError)
    ∧ parse_date "01/02/2024" = inr (Some (Strptime.strftime_iso d))
    ∧ ymd_format (Strptime.strftime_iso d) d
    ∧ (1000 ≤ Strptime.year d → iso_format (Strptime.strftime_iso d) d).
Proof.
  apply (parse_date_supported_formats "01/02/2024").
  exists "%m/%d/%Y", (Strptime.Date 2024 1 2).
  split; [|vm_compute; reflexivity].
  unfold DATE_FORMATS. repeat constructor.
Defined.

(** C8. A text that parses under none of the formats of DATE_FORMATS, such
    as "yesterday", makes [parse_date] return None; the call returns and
    raises nothing. *)
Theorem parse_date_unparseable (text : string) :
  (∀ fmt d, fmt ∈ DATE_FORMATS → ¬ parses_as text fmt d) →
  parse_date text = inr None.
Proof.
  intros Hnone. apply parse_date_loop_none. intros fmt Hin.
  destruct (Strptime.strptime (PyStr.strip text) fmt) as [e|d] eqn:Hs; [by eexists|].
  by destruct (Hnone fmt d Hin).
Qed.

Lemma parse_date_unparseable_witness : parse_date "yesterday" = inr None.
Proof.
  apply parse_date_unparseable.
  intros fmt d Hin. unfold parses_as.
  unfold DATE_FORMATS in Hin.
  repeat (apply elem_of_cons in Hin as [->|Hin]; [vm_compute; discriminate|]).
  by apply elem_of_nil in Hin.
Defined.

(* ===================================================================== *)
(** * The tag classifier *)
(* ===================================================================== *)

Section TagFacts.

Lemma foldl_add_tag_mono (text : string) (l : list (string * list string))
    (tags : gset string) :
  tags ⊆ foldl (add_tag text) tags l.
Proof.
  revert tags. induction l as [|entry l IH]; intros tags; simpl; [done|].
  etrans; [|apply IH]. unfold add_tag. case_match; set_solver.
Qed.

End TagFacts.

(** C3. Whatever the title and the excerpt, the list returned by
    [extract_tags] contains the default label "databases", has no duplicates
    and is in ascending order; for an empty title and an empty excerpt it is
    the default label alone. *)
Theorem extract_tags_default_sorted (card : node) (title excerpt : string) :
  "databases" ∈ extract_tags card title excerpt
  ∧ NoDup (extract_tags card title excerpt)
  ∧ StronglySorted String.le (extract_tags card title excerpt)
  ∧ (∀ card' : node, extract_tags card' title excerpt = extract_tags card title excerpt)
  ∧ extract_tags card "" "" = elements DEFAULT_TAGS
  ∧ elements DEFAULT_TAGS = ["databases"].
Proof.
  unfold extract_tags. split_and!.
  - rewrite merge_sort_Permutation, elem_of_elements.
    apply foldl_add_tag_mono. unfold DEFAULT_TAGS. set_solver.
  - rewrite merge_sort_Permutation. apply NoDup_elements.
  - apply StronglySorted_merge_sort; apply _.
  - reflexivity.
  - vm_compute. reflexivity.
  - vm_compute. reflexivity.
Qed.

(* ===================================================================== *)
(** * The record extractor *)
(* ===================================================================== *)

Section ExtractFacts.


Lemma find_Some (p : node → bool) (n x : node) :
  Soup.find p n = Some x → p x = true ∧ In x (Soup.descendants n).
Proof.
  unfold Soup.find, Soup.find_all. intros H.
  assert (Hin : In x (List.filter p (Soup.descendants n))).
  { destruct (List.filter p (Soup.descendants n)); [discriminate|].
    injection H as ->. by left. }
  apply filter_In in Hin. tauto.
Qed.

Lemma link_elem_href (card l : node) :
  link_elem card = Some l → ∃ u, Soup.get "href" l = Some u.
Proof.
  intros [Hp _]%find_Some. apply andb_true_iff in Hp as [_ Hp].
  unfold Soup.has_attr in Hp. apply bool_decide_eq_true in Hp as [u Hu]. eauto.
Qed.

(** The extractor in closed form: it skips the card exactly when the
    title element or the link is missing. *)
Lemma extract_post_data_eq (card : node) :
  extract_post_data card =
  match title_elem card, link_elem card with
  | Some t, Some l =>
      Some (BlogPost_init (Soup.get_text t)
              (absolute_url (default "" (Soup.get "href" l)))
              (published_date card)
              (absolute_image <$> image_src card)
              (excerpt_text card)
              (extract_tags card (Soup.get_text t) (excerpt_text card)))
  | _, _ => None
  end.
Proof.
  unfold extract_post_data, extract_post_data_body.
  destruct (title_elem card) as [t|]; [|done].
  destruct (link_elem card) as [l|] eqn:Hl; [|done].
  destruct (link_elem_href _ _ Hl) as [u Hu].
  unfold Soup.getitem. rewrite Hu.
  cbn [mbind result_bind mret result_ret default from_option id].
  unfold image_src, published_date, excerpt_text.
  assert (Hdate :
    ∀ ds, ∃ r, parse_date ds = inr r) by apply parse_date_never_raises.
  destruct (Soup.find (Soup.has_name "img") card) as [img|]; cbn [mbind option_bind].
  - unfold Soup.has_attr.
    destruct (Soup.get "src" img) as [v|] eqn:Hv.
    + rewrite bool_decide_eq_true_2 by eauto.
      cbn [mbind result_bind mret result_ret fmap option_fmap option_map].
      destruct (Soup.get_text <$> date_elem card) as [ds|]; [|done].
      destruct (ds =? "")%string; [done|].
      by destruct (Hdate ds) as [r ->].
    + rewrite bool_decide_eq_false_2 by (intros [? ?]; done).
      cbn [mbind result_bind mret result_ret fmap option_fmap option_map].
      destruct (Soup.get_text <$> date_elem card) as [ds|]; [|done].
      destruct (ds =? "")%string; [done|].
      by destruct (Hdate ds) as [r ->].
  - cbn [mbind result_bind mret result_ret fmap option_fmap option_map].
    destruct (Soup.get_text <$> date_elem card) as [ds|]; [|done].
    destruct (ds =? "")%string; [done|].
    by destruct (Hdate ds) as [r ->].
Qed.

Lemma extract_post_data_Some (card : node) (post : BlogPost) :
  extract_post_data card = Some post →
  ∃ t l u,
    title_elem card = Some t ∧ link_elem card = Some l
    ∧ Soup.get "href" l = Some u
    ∧ post = BlogPost_init (Soup.get_text t) (absolute_url u)
               (published_date card) (absolute_image <$> image_src card)
               (excerpt_text card)
               (extract_tags card (Soup.get_text t) (excerpt_text card)).
Proof.
  rewrite extract_post_data_eq.
  destruct (title_elem card) as [t|]; [|discriminate].
  destruct (link_elem card) as [l|] eqn:Hl; [|discriminate].
  destruct (link_elem_href _ _ Hl) as [u Hu]. rewrite Hu.
  cbn [default from_option id]. intros [= <-]. by exists t, l, u.
Qed.

End ExtractFacts.

(** C1 fails as stated: a card whose only title element is a link around an
    image has an empty title text, yet it is not skipped; its record has the
    empty title. *)
Lemma empty_title_not_skipped :
  (∃ t, title_elem untitled_card = Some t ∧ Soup.get_text t = "")
  ∧ extract_post_data untitled_card =
      Some {| title := ""; url := "https://www.cockroachlabs.com/blog/x";
              date := None; image := Some ""; excerpt := "";
              tags := ["databases"] |}
  ∧ extract_post_data untitled_card ≠ None.
Proof.
  split_and!.
  - eexists. split; vm_compute; reflexivity.
  - vm_compute. reflexivity.
  - vm_compute. discriminate.
Qed.

(** C1, amended. The extractor returns None exactly when the card has no
    title element (no h2, no h3 and no hyperlink) or no hyperlink with an
    href attribute; otherwise it returns a record whose title is the
    stripped text of the title element, which may be empty. *)
Theorem extract_post_data_required_fields (card : node) :
  (extract_post_data card = None ↔ title_elem card = None ∨ link_elem card = None)
  ∧ (∀ t, title_elem card = Some t → link_elem card ≠ None →
       ∃ post, extract_post_data card = Some post ∧ title post = Soup.get_text t).
Proof.
  rewrite extract_post_data_eq.
  destruct (title_elem card) as [t|], (link_elem card) as [l|].
  - split; [split; [discriminate | intros [|]; discriminate]|].
    intros t' [= <-] _. eexists. split; reflexivity.
  - split; [split; auto|]. intros t' _ Hl. by destruct Hl.
  - split; [split; auto|]. intros t' [=].
  - split; [split; auto|]. intros t' [=].
Qed.

Lemma extract_post_data_required_fields_witness :
  (extract_post_data no_link_card = None)
  ∧ ∃ post, extract_post_data sample_card = Some post
            ∧ title post = "Multi-region replication deep dive".
Proof.
  split.
  - apply (proj1 (extract_post_data_required_fields no_link_card)).
    right. vm_compute. reflexivity.
  - apply (proj2 (extract_post_data_required_fields sample_card)
             (Tag "h2" ∅ [NavigableString "  Multi-region replication deep dive "])).
    + vm_compute. reflexivity.
    + vm_compute. discriminate.
Defined.



(** C10 fails as stated: the empty image source does not start with "http",
    yet it is not prefixed with the origin; the record keeps the empty
    string. *)
Lemma empty_image_src_not_prefixed :
  image_src untitled_card = Some ""
  ∧ PyStr.startswith "http" "" = false
  ∧ ∃ post, extract_post_data untitled_card = Some post
            ∧ image post = Some ""
            ∧ image post ≠ Some (SITE_ORIGIN ++ "").
Proof.
  split_and!; [vm_compute; reflexivity..|].
  eexists. split_and!; [vm_compute; reflexivity| |]; vm_compute; congruence.
Qed.

(** C10, amended. For the post URL the only test is whether the string
    starts with "http": if it does the string is kept, otherwise (the empty
    string and "//cdn.example.com/x.png" included) the origin is put in
    front.  For the image URL the same holds except that the empty string is
    kept as it is.  A string such as "httpfoo" is kept in both places. *)
Theorem url_decision_by_http_prefix (card : node) (post : BlogPost) :
  extract_post_data card = Some post →
  (∃ l u, link_elem card = Some l ∧ Soup.get "href" l = Some u
          ∧ url post = if PyStr.startswith "http" u then u else SITE_ORIGIN ++ u)
  ∧ image post =
      (fun u => if PyStr.startswith "http" u then u
                else if String.eqb u "" then "" else SITE_ORIGIN ++ u)
      <$> image_src card
  ∧ absolute_url "//cdn.example.com/x.png"
      = "https://www.cockroachlabs.com//cdn.example.com/x.png"
  ∧ absolute_image "//cdn.example.com/x.png"
      = "https://www.cockroachlabs.com//cdn.example.com/x.png"
  ∧ absolute_url "httpfoo" = "httpfoo"
  ∧ absolute_image "httpfoo" = "httpfoo"
  ∧ absolute_url "" = "https://www.cockroachlabs.com".
Proof.
  intros (t & l & u & Ht & Hl & Hu & ->)%extract_post_data_Some.
  split_and!; try (vm_compute; reflexivity).
  - exists l, u. split_and!; [done..|]. cbn [url BlogPost_init].
    unfold absolute_url. by destruct (PyStr.startswith "http" u).
  - cbn [image BlogPost_init]. destruct (image_src card) as [v|]; [|done].
    cbn [fmap option_fmap option_map]. f_equal. unfold absolute_image.
    destruct (String.eqb_spec v "") as [->|Hv]; [done|].
    by destruct (PyStr.startswith "http" v).
Qed.

Lemma url_decision_by_http_prefix_witness :
  ∃ post,
    extract_post_data untitled_card = Some post
    ∧ url post = "https://www.cockroachlabs.com/blog/x"
    ∧ image post = Some "".
Proof.
  pose (post := default (BlogPost_init "" "" None None "" [])
                  (extract_post_data untitled_card)).
  assert (Hpost : extract_post_data untitled_card = Some post)
    by (vm_compute; reflexivity).
  destruct (url_decision_by_http_prefix untitled_card post Hpost)
    as ((l & u & Hl & Hu & Hurl) & Himg & _).
  exists post. split; [exact Hpost|]. split.
  - vm_compute. reflexivity.
  - rewrite Himg. vm_compute. reflexivity.
Defined.

(** C5. In an extracted record the excerpt is the empty string when the
    card has no excerpt element, it never has more than 200 characters, and
    an excerpt text of more than 200 characters is cut to exactly its first
    200 characters; a shorter one is kept whole. *)
Theorem excerpt_truncated (card : node) (post : BlogPost) :
  extract_post_data card = Some post →
  (excerpt_elem card = None → excerpt post = "")
  ∧ (String.length (excerpt post) ≤ 200)%nat
  ∧ (∀ e, excerpt_elem card = Some e →
          (200 < String.length (Soup.get_text e))%nat →
          excerpt post = substring 0 200 (Soup.get_text e)
          ∧ String.length (excerpt post) = 200%nat)
  ∧ (∀ e, excerpt_elem card = Some e →
          (String.length (Soup.get_text e) ≤ 200)%nat →
          excerpt post = Soup.get_text e).
Proof.
  intros (t & l & u & Ht & Hl & Hu & ->)%extract_post_data_Some.
  cbn [excerpt BlogPost_init]. unfold excerpt_text, EXCERPT_MAX_LENGTH.
  split_and!.
  - by intros ->.
  - destruct (String.eqb _ ""); [simpl; lia|]. rewrite length_take. lia.
  - intros e -> Hlen.
    destruct (String.eqb_spec (Soup.get_text e) "") as [Heq|_].
    { rewrite Heq in Hlen. simpl in Hlen. lia. }
    split; [apply take_substring|]. rewrite length_take. lia.
  - intros e -> Hlen.
    destruct (String.eqb_spec (Soup.get_text e) "") as [Heq|_]; [done|].
    by apply take_all.
Qed.

Lemma excerpt_truncated_witness :
  ∃ post,
    extract_post_data sample_card = Some post
    ∧ excerpt post = substring 0 200 long_text
    ∧ String.length (excerpt post) = 200%nat.
Proof.
  pose (post := default (BlogPost_init "" "" None None "" [])
                  (extract_post_data sample_card)).
  assert (Hpost : extract_post_data sample_card = Some post)
    by (vm_compute; reflexivity).
  destruct (excerpt_truncated sample_card post Hpost) as (_ & _ & Hlong & _).
  exists post. split; [exact Hpost|].
  apply (Hlong (Tag "p" ∅ [NavigableString long_text])).
  - vm_compute. reflexivity.
  - vm_compute. lia.
Defined.

(* ===================================================================== *)
(** * Matching the class attribute *)
(* ===================================================================== *)

Section ClassFacts.
Import PyStr.

Lemma append_cons (c : ascii) (s t : string) : String c s ++ t = String c (s ++ t).
Proof. reflexivity. Qed.

Lemma append_nil_r (s : string) : s ++ "" = s.
Proof. induction s as [|c s IH]; [done|]. by rewrite append_cons, IH. Qed.

Lemma append_assoc (a b c : string) : (a ++ b) ++ c = a ++ b ++ c.
Proof. induction a as [|x a IH]; [done|]. by rewrite !append_cons, IH. Qed.

Lemma startswith_iff (p s : string) :
  startswith p s = true ↔ ∃ b, s = p ++ b.
Proof.
  revert s. induction p as [|a p IH]; intros s.
  - split; [by exists s|done].
  - destruct s as [|c s]; cbn [startswith].
    + split; [done|]. intros [b Hb]. by rewrite append_cons in Hb.
    + destruct (Ascii.eqb_spec a c) as [->|Hne].
      * rewrite IH. split; intros [b Hb]; exists b.
        -- by rewrite append_cons, Hb.
        -- rewrite append_cons in Hb. by injection Hb.
      * split; [done|]. intros [b Hb]. rewrite append_cons in Hb.
        injection Hb as ? _. by destruct Hne.
Qed.

Lemma substr_cons (k : string) (c : ascii) (s : string) :
  substr k s → substr k (String c s).
Proof. intros (a & b & ->). by exists (String c a), b. Qed.

Lemma substr_refl (k : string) : substr k k.
Proof. exists "", "". by rewrite append_nil_r. Qed.

Lemma substr_app_l (k x y : string) : substr k x → substr k (x ++ y).
Proof.
  intros (a & b & ->). exists a, (b ++ y). by rewrite !append_assoc.
Qed.

Lemma substr_app_r (k x y : string) : substr k y → substr k (x ++ y).
Proof.
  intros (a & b & ->). exists (x ++ a), b. by rewrite !append_assoc.
Qed.

Lemma substr_trans (k t s : string) : substr k t → substr t s → substr k s.
Proof.
  intros Hk (a & b & ->). by apply substr_app_r, substr_app_l.
Qed.

Lemma substr_nil (k : string) : substr k "" → k = "".
Proof.
  intros (a & b & H). destruct a; [|discriminate]. by destruct k.
Qed.

Lemma contains_iff (k s : string) : contains k s = true ↔ substr k s.
Proof.
  split.
  - induction s as [|c s IH]; cbn [contains]; rewrite orb_true_iff.
    + intros [(b & ->)%startswith_iff|]; [|done]. by exists "", b.
    + intros [(b & ->)%startswith_iff|H]; [by exists "", b|].
      by apply substr_cons, IH.
  - intros (a & b & ->). induction a as [|c a IH].
    + assert (startswith k ("" ++ k ++ b) = true) as Hs
        by (apply startswith_iff; by exists b).
      destruct ("" ++ k ++ b); cbn [contains]; by rewrite Hs.
    + rewrite append_cons. cbn [contains]. rewrite IH. apply orb_true_r.
Qed.

(** A text without whitespace that starts before a whitespace character
    ends before it. *)
Lemma spacefree_prefix (k b x : string) (c : ascii) (y : string) :
  spacefree k = true → is_space c = true →
  k ++ b = x ++ String c y → ∃ r, x = k ++ r.
Proof.
  revert x. induction k as [|d k IH]; intros x Hk Hc H.
  - by exists x.
  - cbn [spacefree] in Hk. apply andb_true_iff in Hk as [Hd Hk].
    destruct x as [|e x]; rewrite !append_cons in H.
    + injection H as -> _. rewrite Hc in Hd. done.
    + injection H as -> H. destruct (IH x Hk Hc H) as [r ->]. by exists r.
Qed.

(** A text without whitespace that occurs around a whitespace character
    occurs before it or after it. *)
Lemma substr_across_space (k x : string) (c : ascii) (y : string) :
  spacefree k = true → is_space c = true →
  substr k (x ++ String c y) → substr k x ∨ substr k y.
Proof.
  intros Hk Hc (a & b & H). revert x H.
  induction a as [|d a IH]; intros x H.
  - left. symmetry in H.
    destruct (spacefree_prefix k b x c y Hk Hc H) as [r ->].
    by exists "", r.
  - destruct x as [|e x]; rewrite !append_cons in H.
    + injection H as _ ->. right. by exists a, b.
    + injection H as _ H. destruct (IH x H) as [Hx|Hy]; [|by right].
      left. by apply substr_cons.
Qed.

Lemma split_go_substr (cur : option string) (s t : string) :
  t ∈ split_go cur s → substr t (in_progress cur ++ s).
Proof.
  revert cur. induction s as [|c s IH]; intros cur; cbn [split_go].
  - destruct cur as [w|]; cbn; [|by intros ?%elem_of_nil].
    intros ->%list_elem_of_singleton. apply substr_app_l, substr_refl.
  - destruct (is_space c).
    + intros [Hin|Hin]%elem_of_app.
      * destruct cur as [w|]; cbn in Hin; [|by apply elem_of_nil in Hin].
        apply list_elem_of_singleton in Hin as ->.
        apply substr_app_l, substr_refl.
      * apply substr_app_r, substr_cons. apply (IH None Hin).
    + intros Hin. apply IH in Hin. destruct cur as [w|]; cbn in *.
      * by rewrite append_assoc in Hin.
      * done.
Qed.

Lemma split_go_covers (k : string) (cur : option string) (s : string) :
  k ≠ "" → spacefree k = true →
  substr k (in_progress cur ++ s) →
  ∃ t, t ∈ split_go cur s ∧ substr k t.
Proof.
  intros Hne Hk. revert cur. induction s as [|c s IH]; intros cur; cbn [split_go].
  - rewrite append_nil_r. destruct cur as [w|]; cbn.
    + intros H. exists w. split; [by left|done].
    + by intros ?%substr_nil.
  - destruct (is_space c) eqn:Hc.
    + intros [Hw|Hs]%substr_across_space; [| |done..].
      * destruct cur as [w|]; cbn in *; [|by apply substr_nil in Hw].
        exists w. split; [by left|done].
      * destruct (IH None Hs) as (t & Hin & Ht).
        exists t. split; [|done]. apply elem_of_app. by right.
    + intros H. apply IH. destruct cur as [w|]; cbn in *.
      * by rewrite append_assoc.
      * done.
Qed.

Lemma join_covers (k : string) (toks : list string) :
  k ≠ "" → spacefree k = true →
  substr k (join " " toks) → ∃ t, t ∈ toks ∧ substr k t.
Proof.
  intros Hne Hk. induction toks as [|x toks IH]; cbn [join].
  - by intros ?%substr_nil.
  - destruct toks as [|y toks].
    + intros H. exists x. split; [by left|done].
    + intros [Hx|Hy]%substr_across_space; [| |done..].
      * exists x. split; [by left|done].
      * destruct (IH Hy) as (t & Hin & Ht). exists t. split; [by right|done].
Qed.

(** For keywords without whitespace, BeautifulSoup's match on the list of
    class names is a substring test on the attribute as written. *)
Lemma class_matches_substring (keywords : list string) (n : node) :
  Forall (fun k => k ≠ "" ∧ spacefree k = true) keywords →
  Soup.class_matches keywords n = class_has_substring keywords n.
Proof.
  intros Hkw. unfold Soup.class_matches, Soup.class_tokens, class_has_substring.
  destruct (Soup.get "class" n) as [c|]; cbn [fmap option_fmap option_map]; [|done].
  apply eq_true_iff_eq. rewrite orb_true_iff, !existsb_exists.
  unfold Soup.search. setoid_rewrite existsb_exists.
  setoid_rewrite contains_iff. split.
  - intros [(t & Ht & k & Hin & Hkt)|(k & Hin & Hkj)].
    + exists k. split; [done|]. apply (substr_trans k t c); [done|].
      apply list_elem_of_In in Ht. apply (split_go_substr None c t Ht).
    + exists k. split; [done|].
      rewrite Forall_forall in Hkw. destruct (Hkw k) as [Hne Hsf].
      { apply list_elem_of_In, Hin. }
      destruct (join_covers k _ Hne Hsf Hkj) as (t & Ht & Hkt).
      apply (substr_trans k t c); [done|]. apply (split_go_substr None c t Ht).
  - intros (k & Hin & Hkc). left.
    rewrite Forall_forall in Hkw. destruct (Hkw k) as [Hne Hsf].
    { apply list_elem_of_In, Hin. }
    destruct (split_go_covers k None c Hne Hsf Hkc) as (t & Ht & Hkt).
    exists t. split; [by apply list_elem_of_In|]. by exists k.
Qed.

End ClassFacts.

(* ===================================================================== *)
(** * The page scraper *)
(* ===================================================================== *)

Section ScrapeFacts.

Lemma scrape_loop_from (cards : list node) (posts : list BlogPost) :
  foldl (fun posts card =>
           match extract_post_data card with
           | Some post => (posts ++ [post])%list
           | None => posts
           end) posts cards
  = (posts ++ omap extract_post_data cards)%list.
Proof.
  revert posts. induction cards as [|card cards IH]; intros posts; simpl.
  - by rewrite app_nil_r.
  - rewrite IH. destruct (extract_post_data card); [|done].
    by rewrite <- app_assoc.
Qed.

Lemma scrape_loop_omap (cards : list node) :
  scrape_loop cards = omap extract_post_data cards.
Proof. unfold scrape_loop. by rewrite scrape_loop_from. Qed.

End ScrapeFacts.

(** C6. The candidates of a page are all its article elements, in document
    order, if there is any; otherwise all its div elements whose class
    attribute has "post", "article" or "card" as a substring, letter case
    respected.  The scraper runs the extractor over the candidates in that
    order and returns exactly the records that are not None, in the same
    order. *)
Theorem scrape_two_tier_in_order (env : Env) (soup : node) (fetched : result Response) :
  let keywords := ["post"; "article"; "card"] in
  let articles := List.filter (Soup.has_name "article") (Soup.descendants soup) in
  let divs :=
    List.filter (fun n => Soup.has_name "div" n && class_has_substring keywords n)
      (Soup.descendants soup) in
  post_cards soup = match articles with [] => divs | _ => articles end
  ∧ scrape_loop (post_cards soup) = omap extract_post_data (post_cards soup)
  ∧ Some <$> scrape_loop (post_cards soup)
      = filter is_Some (extract_post_data <$> post_cards soup)
  ∧ scrape_crl_author_page env fetched =
      (response ← fetch fetched;
       soup ← html_parser env (content response);
       mret (omap extract_post_data (post_cards soup)))
  ∧ (title <$> scrape_loop (post_cards article_page)
       = ["Multi-region replication deep dive"; "Pricing"])
  ∧ post_cards div_page
      = [untitled_card; Tag "div" {[ "class" := "x blog-post" ]} []].
Proof.
  intros keywords articles divs. split_and!.
  - unfold post_cards, Soup.find_all. fold articles.
    destruct articles; [|done]. apply filter_ext. intros n.
    f_equal. apply class_matches_substring.
    repeat constructor; done.
  - apply scrape_loop_omap.
  - rewrite scrape_loop_omap.
    induction (post_cards soup) as [|card cards IH]; [done|].
    cbn [omap list_omap fmap list_fmap].
    destruct (extract_post_data card) as [post|] eqn:Hc.
    + rewrite filter_cons_True by done. cbn [fmap list_fmap]. by rewrite IH.
    + rewrite filter_cons_False by (by intros [? ?]). done.
  - unfold scrape_crl_author_page.
    destruct (fetch fetched) as [e|response]; cbn [mbind result_bind]; [done|].
    destruct (html_parser env (content response)) as [e|page];
      cbn [mbind result_bind]; [done|].
    by rewrite scrape_loop_omap.
  - vm_compute. reflexivity.
  - vm_compute. reflexivity.
Qed.

(* ===================================================================== *)
(** * The exit code *)
(* ===================================================================== *)

(** C7. [main] returns 0 exactly when the scrape gave at least one record
    and the output file was written with the generated text; in every other
    case it returns 1 and leaves the files alone: when the fetch raised,
    when no record was extracted, and when the write failed. *)
Theorem main_exit_code (env : Env) (fetched : result Response) (w : World) :
  let code := (main env fetched w).1 in
  let w' := (main env fetched w).2 in
  (code = 0 ∨ code = 1)
  ∧ (code = 0 ↔
       ∃ posts, scrape_crl_author_page env fetched = inr posts
                ∧ posts ≠ []
                ∧ write_output_file (generate_typescript_file env posts) OUTPUT_PATH w
                    = inr w'
                ∧ files w' !! OUTPUT_PATH = Some (generate_typescript_file env posts))
  ∧ (code = 1 → w' = w)
  ∧ (scrape_crl_author_page env fetched = inr [] → code = 1)
  ∧ (∀ e, fetch fetched = inl e → code = 1)
  ∧ (writable w = false → code = 1)
  ∧ run_against env (always 503) w = Some (1, w)
  ∧ run_against env (always 404) w = Some (1, w).
Proof.
  cbn zeta. unfold main, main_body, scrape_crl_author_page.
  destruct (fetch fetched) as [e|response]; cbn [mbind result_bind mret result_ret fst snd].
  { split_and!; try done; [by right|]. split; [done|]. by intros (? & ? & _). }
  assert (run_against env (always 503) w = Some (1, w)
          ∧ run_against env (always 404) w = Some (1, w)) as [H503 H404]
    by (split; vm_compute; reflexivity).
  destruct (html_parser env (content response)) as [e|soup];
    cbn [mbind result_bind mret result_ret fst snd].
  { split_and!; try done; [by right|]. split; [done|]. by intros (? & ? & _). }
  destruct (scrape_loop _) as [|post posts]; cbn [fst snd].
  { split_and!; try done; [by right|]. split; [done|].
    intros (? & [= <-] & ? & _). done. }
  unfold write_output_file.
  destruct (writable w) eqn:Hw; cbn [mbind result_bind mret result_ret fst snd].
  - split_and!; try done; [by left|].
    split; [|done]. intros _. exists (post :: posts). split_and!; [done..|].
    cbn [files]. apply lookup_insert_eq.
  - split_and!; try done; [by right|]. split; [done|].
    intros (? & [= <-] & _ & ? & _). done.
Qed.

(* ===================================================================== *)
(** * Retries *)
(* ===================================================================== *)

Section RetryFacts.
Import Urllib3.

Variable seconds_of : string → result QArith_base.Q.
Variable server : nat → reply.
Variable method : string.
















End RetryFacts.

Section SessionFacts.

Variable env : Env.
Variable server : nat → reply.






End SessionFacts.




(* ===================================================================== *)
(** * Further properties of the tag classifier *)
(* ===================================================================== *)

Section MoreTagFacts.
Import PyStr.

Lemma foldl_add_tag_elem (text : string) (l : list (string * list string))
    (tags : gset string) (x : string) :
  x ∈ foldl (add_tag text) tags l
  ↔ x ∈ tags ∨ ∃ kws, (x, kws) ∈ l ∧ existsb (fun k => contains k text) kws = true.
Proof.
  revert tags. induction l as [|[label kws] l IH]; intros tags; cbn [foldl].
  - split; [by left|]. intros [?|(kws & Hin & _)]; [done|]. by apply elem_of_nil in Hin.
  - rewrite IH. unfold add_tag. cbn [fst snd].
    destruct (existsb (fun k => contains k text) kws) eqn:Hex.
    + rewrite elem_of_union, elem_of_singleton. split.
      * intros [[->|?]|(kws' & Hin & Hk)].
        -- right. exists kws. split; [by left|done].
        -- by left.
        -- right. exists kws'. split; [by right|done].
      * intros [?|(kws' & Hin & Hk)]; [left; by right|].
        apply elem_of_cons in Hin as [[= -> ->]|Hin]; [left; by left|].
        right. by exists kws'.
    + split.
      * intros [?|(kws' & Hin & Hk)]; [by left|].
        right. exists kws'. split; [by right|done].
      * intros [?|(kws' & Hin & Hk)]; [by left|].
        apply elem_of_cons in Hin as [[= -> ->]|Hin]; [congruence|].
        right. by exists kws'.
Qed.

Lemma extract_tags_elem (card : node) (title excerpt label : string) :
  label ∈ extract_tags card title excerpt
  ↔ label = "databases"
    ∨ ∃ kws k, (label, kws) ∈ tag_keywords ∧ k ∈ kws
               ∧ substr k (combined_text title excerpt).
Proof.
  unfold extract_tags. rewrite merge_sort_Permutation, elem_of_elements.
  rewrite foldl_add_tag_elem. unfold DEFAULT_TAGS. rewrite elem_of_singleton.
  fold (combined_text title excerpt).
  split.
  - intros [?|(kws & Hin & Hk)]; [by left|right].
    apply existsb_exists in Hk as (k & Hk & Hc).
    exists kws, k. split_and!; [done|by apply list_elem_of_In|by apply contains_iff].
  - intros [?|(kws & k & Hin & Hkin & Hsub)]; [by left|right].
    exists kws. split; [done|].
    apply existsb_exists. exists k. split; [by apply list_elem_of_In|].
    by apply contains_iff.
Qed.

Lemma lower_app (a b : string) : lower (a ++ b) = lower a ++ lower b.
Proof. induction a as [|c a IH]; [done|]. cbn [lower]. by rewrite !append_cons, <- IH. Qed.

Lemma lower_char_idem (c : ascii) : lower_char (lower_char c) = lower_char c.
Proof. destruct c as [[] [] [] [] [] [] [] []]; vm_compute; reflexivity. Qed.

Lemma lower_idem (s : string) : lower (lower s) = lower s.
Proof. induction s as [|c s IH]; [done|]. cbn [lower]. by rewrite lower_char_idem, IH. Qed.

Lemma combined_text_lower (title excerpt : string) :
  combined_text title excerpt = lower title ++ " " ++ lower excerpt.
Proof. unfold combined_text. by rewrite !lower_app. Qed.

End MoreTagFacts.

(** X1. A label is in the result of [extract_tags] exactly when it is the
    default "databases" or one of its keywords in the table occurs in the
    lower-cased text made of the title, a blank and the excerpt. *)
Theorem extract_tags_membership (card : node) (title excerpt label : string) :
  label ∈ extract_tags card title excerpt
  ↔ label = "databases"
    ∨ ∃ kws k, (label, kws) ∈ tag_keywords ∧ k ∈ kws
               ∧ substr k (PyStr.lower (title ++ " " ++ excerpt)).
Proof. apply extract_tags_elem. Qed.

(** X2. The classification ignores letter case: two inputs whose titles and
    excerpts agree after lower-casing get the same tags, and lower-casing
    the title and the excerpt beforehand changes nothing. *)
Theorem extract_tags_case_insensitive (card : node) (title excerpt : string) :
  (∀ title' excerpt',
     PyStr.lower title' = PyStr.lower title →
     PyStr.lower excerpt' = PyStr.lower excerpt →
     extract_tags card title' excerpt' = extract_tags card title excerpt)
  ∧ extract_tags card (PyStr.lower title) (PyStr.lower excerpt)
    = extract_tags card title excerpt.
Proof.
  assert (Hgen : ∀ t e t' e', PyStr.lower t' = PyStr.lower t →
            PyStr.lower e' = PyStr.lower e →
            extract_tags card t' e' = extract_tags card t e).
  { intros t e t' e' Ht He. unfold extract_tags.
    fold (combined_text t' e'). fold (combined_text t e).
    by rewrite !combined_text_lower, Ht, He. }
  split; [apply Hgen|]. apply Hgen; apply lower_idem.
Qed.

Lemma extract_tags_case_insensitive_witness :
  extract_tags sample_card "AWS Pricing" "Multi-Region"
  = extract_tags sample_card "aws pricing" "multi-region".
Proof.
  apply (proj1 (extract_tags_case_insensitive sample_card "aws pricing" "multi-region"));
    vm_compute; reflexivity.
Defined.

(** X3. Adding text in front of the title or after the excerpt never
    removes a tag. *)
Theorem extract_tags_monotone (card : node) (title excerpt before after label : string) :
  label ∈ extract_tags card title excerpt →
  label ∈ extract_tags card (before ++ title) (excerpt ++ after).
Proof.
  rewrite !extract_tags_elem.
  intros [?|(kws & k & Hin & Hk & Hsub)]; [by left|right].
  exists kws, k. split_and!; [done..|].
  rewrite combined_text_lower in Hsub. rewrite combined_text_lower, !lower_app.
  rewrite !append_assoc.
  apply substr_app_r. rewrite <- !append_assoc. apply substr_app_l.
  by rewrite !append_assoc.
Qed.

Lemma extract_tags_monotone_witness :
  "cloud" ∈ extract_tags sample_card ("Why " ++ "Cloud") ("" ++ " matters").
Proof.
  apply (extract_tags_monotone sample_card "Cloud" "" "Why " " matters" "cloud").
  apply list_elem_of_In. vm_compute. left. reflexivity.
Defined.

(** X4. Every returned tag is "databases" or a label of the keyword table,
    so at most eleven tags are returned. *)
Theorem extract_tags_bounded (card : node) (title excerpt : string) :
  extract_tags card title excerpt ⊆ "databases" :: tag_labels
  ∧ (1 ≤ length (extract_tags card title excerpt) ≤ 11)%nat.
Proof.
  assert (Hsub : extract_tags card title excerpt ⊆ "databases" :: tag_labels).
  { intros label [->|(kws & k & Hin & _)]%extract_tags_elem; [by left|].
    right. unfold tag_labels. apply list_elem_of_fmap. by exists (label, kws). }
  split; [done|]. split.
  - assert (Hd : "databases" ∈ extract_tags card title excerpt)
      by (apply extract_tags_elem; by left).
    destruct (extract_tags card title excerpt); [by apply elem_of_nil in Hd|simpl; lia].
  - assert (Hnd : NoDup (extract_tags card title excerpt)).
    { unfold extract_tags. rewrite merge_sort_Permutation. apply NoDup_elements. }
    apply (NoDup_submseteq _ _ Hnd) in Hsub. apply submseteq_length in Hsub.
    exact Hsub.
Qed.

(** X5. The keyword "pricing" stands under two labels: a text that
    mentions pricing is tagged both "pricing" and "product-management". *)
Theorem pricing_implies_product_management (card : node) (title excerpt : string) :
  substr "pricing" (PyStr.lower (title ++ " " ++ excerpt)) →
  "pricing" ∈ extract_tags card title excerpt
  ∧ "product-management" ∈ extract_tags card title excerpt.
Proof.
  intros Hsub. rewrite !extract_tags_elem. split; right.
  - exists ["pricing"; "cost"; "billing"], "pricing".
    split_and!; [|by left|done]. unfold tag_keywords. do 4 right. by left.
  - exists ["product"; "pricing"; "packaging"; "strategy"], "pricing".
    split_and!; [|right; by left|done]. unfold tag_keywords. do 3 right. by left.
Qed.

Lemma pricing_implies_product_management_witness :
  "pricing" ∈ extract_tags sample_card "New Pricing" "for everyone"
  ∧ "product-management" ∈ extract_tags sample_card "New Pricing" "for everyone".
Proof.
  apply pricing_implies_product_management.
  exists "new ", " for everyone". reflexivity.
Defined.


(* ===================================================================== *)
(** * Further properties of parse_date *)
(* ===================================================================== *)

Section MoreDateFacts.
Import PyStr Strptime.

Lemma make_date_valid (y m d : Z) (x : date) :
  make_date y m d = inr x → x = Date y m d ∧ valid_date x.
Proof.
  unfold make_date. case_match eqn:Hc; [|discriminate]. intros [= <-].
  repeat (apply andb_true_iff in Hc as [Hc ?]).
  split; [done|]. unfold valid_date. cbn [year month day]. lia.
Qed.

Lemma strptime_valid_date (s fmt : string) (x : date) :
  strptime s fmt = inr x → valid_date x.
Proof.
  unfold strptime. intros H.
  apply bind_inr in H as (its & _ & H).
  destruct (run its s ∅) as [|[found rest] _]; [discriminate|].
  destruct (negb (rest =? "")%string); [discriminate|].
  repeat (apply bind_inr in H as (? & _ & H)).
  by apply make_date_valid in H as (_ & ?).
Qed.

Lemma valid_date_ranges (d : date) :
  valid_date d → 1 ≤ year d ≤ 9999 ∧ 1 ≤ month d ≤ 12 ∧ 1 ≤ day d ≤ 31.
Proof.
  intros (Hy & Hm & Hd).
  assert (days_in_month (year d) (month d) ≤ 31).
  { unfold days_in_month. repeat case_match; lia. }
  lia.
Qed.

Lemma parse_date_loop_Some (s : string) (fmts : list string) (r : string) :
  parse_date_loop s fmts = inr (Some r) →
  ∃ fmt d, fmt ∈ fmts ∧ strptime s fmt = inr d ∧ r = strftime_iso d.
Proof.
  induction fmts as [|f fmts IH]; cbn [parse_date_loop]; [discriminate|].
  destruct (strptime s f) as [e|d] eqn:Hs.
  - apply strptime_raises in Hs as ->. intros H.
    destruct (IH H) as (fmt & d & Hin & Hd & ->).
    exists fmt, d. split; [by right|done].
  - intros [= <-]. exists f, d. split; [by left|done].
Qed.

Lemma length_append (a b : string) :
  String.length (a ++ b) = (String.length a + String.length b)%nat.
Proof. induction a as [|c a IH]; [done|]. rewrite append_cons. simpl. by rewrite IH. Qed.

Lemma strftime_iso_length (d : date) :
  valid_date d →
  String.length (strftime_iso d) = (String.length (decimal (year d)) + 6)%nat.
Proof.
  intros Hv. destruct (valid_date_ranges d Hv) as (Hy & Hm & Hd).
  pose proof (zfill2_ok (month d) ltac:(lia)) as H2.
  pose proof (zfill2_ok (day d) Hd) as H2'.
  unfold zfill_ok in *.
  apply andb_true_iff in H2 as [HM%Nat.eqb_eq _].
  apply andb_true_iff in H2' as [HD%Nat.eqb_eq _].
  unfold strftime_iso. rewrite !length_append, HM, HD. simpl. lia.
Qed.

End MoreDateFacts.

(** X6. Whatever text it is given, a date that [parse_date] returns is a
    date of the calendar (the day exists in that month, 29 February only in
    leap years, the year between 1 and 9999), parsed from the text by one of
    the formats.  It is written as year, two-digit month and two-digit day
    joined by hyphens, in seven to ten characters: ten exactly when the year
    is 1000 or later. *)
Theorem parse_date_calendar (text r : string) :
  parse_date text = inr (Some r) →
  ∃ fmt d,
    fmt ∈ DATE_FORMATS ∧ parses_as text fmt d ∧ valid_date d
    ∧ r = Strptime.strftime_iso d ∧ ymd_format r d
    ∧ (7 ≤ String.length r ≤ 10)%nat
    ∧ (String.length r = 10%nat ↔ 1000 ≤ Strptime.year d).
Proof.
  intros (fmt & d & Hin & Hd & ->)%parse_date_loop_Some.
  pose proof (strptime_valid_date _ _ _ Hd) as Hv.
  destruct (valid_date_ranges d Hv) as (Hy & Hm & Hday).
  destruct (decimal_year_facts _ Hy) as (Hlen & _ & Hfour & _).
  exists fmt, d. split; [done|]. split; [done|]. split; [done|]. split; [done|].
  split; [by apply strftime_ymd_format|].
  rewrite (strftime_iso_length d Hv). split; [lia|].
  rewrite <- Hfour. lia.
Qed.

Lemma parse_date_calendar_witness :
  ∃ fmt d,
    fmt ∈ DATE_FORMATS ∧ parses_as "Feb 29, 2024" fmt d ∧ valid_date d
    ∧ "2024-02-29" = Strptime.strftime_iso d ∧ ymd_format "2024-02-29" d
    ∧ (7 ≤ String.length "2024-02-29" ≤ 10)%nat
    ∧ (String.length "2024-02-29" = 10%nat ↔ 1000 ≤ Strptime.year d).
Proof.
  apply (parse_date_calendar "Feb 29, 2024" "2024-02-29").
  vm_compute. reflexivity.
Defined.

Section StripFacts.
Import PyStr.

Lemma lstrip_all_space (ws s : string) :
  all_space ws = true → lstrip (ws ++ s) = lstrip s.
Proof.
  induction ws as [|c ws IH]; [done|]. cbn [all_space].
  intros [Hc Hws]%andb_true_iff. rewrite append_cons. cbn [lstrip].
  rewrite Hc. by apply IH.
Qed.

Lemma rstrip_all_space (ws : string) : all_space ws = true → rstrip ws = "".
Proof.
  induction ws as [|c ws IH]; [done|]. cbn [all_space].
  intros [Hc Hws]%andb_true_iff. cbn [rstrip]. by rewrite (IH Hws), Hc.
Qed.

Lemma rstrip_app_all_space (s ws : string) :
  all_space ws = true → rstrip (s ++ ws) = rstrip s.
Proof.
  intros Hws. induction s as [|c s IH]; [by apply rstrip_all_space|].
  rewrite append_cons. cbn [rstrip]. by rewrite IH.
Qed.

Lemma strip_app_all_space (s ws : string) :
  all_space ws = true → strip (s ++ ws) = strip s.
Proof.
  intros Hws. unfold strip. induction s as [|c s IH].
  - cbn [lstrip]. replace ("" ++ ws) with ws by done.
    rewrite <- (append_nil_r ws) at 1. rewrite lstrip_all_space by done. done.
  - rewrite append_cons. cbn [lstrip]. destruct (is_space c); [exact IH|].
    rewrite <- append_cons. by apply rstrip_app_all_space.
Qed.

Lemma strip_padding (before s after : string) :
  all_space before = true → all_space after = true →
  strip (before ++ s ++ after) = strip s.
Proof.
  intros Hb Ha. unfold strip. rewrite lstrip_all_space by done.
  by apply strip_app_all_space.
Qed.

Lemma rstrip_cons_nonspace (c : ascii) (s : string) :
  is_space c = false → rstrip (String c s) = String c (rstrip s).
Proof. intros Hc. cbn [rstrip]. destruct (rstrip s); [by rewrite Hc|done]. Qed.

Lemma spacefree_strip (s : string) : spacefree s = true → strip s = s.
Proof.
  intros Hs. unfold strip.
  assert (Hr : rstrip s = s).
  { induction s as [|c s IH]; [done|]. cbn [spacefree] in Hs.
    apply andb_true_iff in Hs as [Hc Hs]. apply negb_true_iff in Hc.
    by rewrite rstrip_cons_nonspace, IH. }
  destruct s as [|c s]; [done|]. cbn [spacefree] in Hs.
  apply andb_true_iff in Hs as [Hc _]. apply negb_true_iff in Hc.
  cbn [lstrip]. by rewrite Hc.
Qed.

End StripFacts.

(** X7. Whitespace around a date text is ignored: the text with blanks,
    tabs or line breaks before and after it parses to the same result. *)
Theorem parse_date_ignores_padding (before text after : string) :
  all_space before = true → all_space after = true →
  parse_date (before ++ text ++ after) = parse_date text.
Proof.
  intros Hb Ha. unfold parse_date. by rewrite strip_padding.
Qed.

Lemma parse_date_ignores_padding_witness :
  parse_date ("  " ++ "Jan 15, 2024" ++ String "010" "")
  = parse_date "Jan 15, 2024".
Proof. apply parse_date_ignores_padding; reflexivity. Defined.

Section IsoRoundTrip.
Import PyStr Strptime.

Lemma run_run_binds (its : list item) (s : string) (g : gmap string string) :
  run its s g = (fun '(bs, out) => (put_all g bs, out)) <$> run_binds its s.
Proof.
  revert s g. induction its as [|[k r] its IH]; intros s g; [done|].
  cbn [run run_binds].
  induction (rmatch r s) as [|[c rest] l IHl]; [done|].
  rewrite !bind_cons, fmap_app, <- IHl. f_equal.
  rewrite IH. clear.
  induction (run_binds its rest) as [|[bs out] l' IHl']; [done|].
  rewrite bind_cons, !fmap_cons, IHl'. cbn [app fmap list_fmap].
  f_equal. by destruct k.
Qed.

Lemma is_digit_digit_char (n : Z) : is_digit (digit_char n) = true.
Proof.
  unfold digit_char.
  assert (Hall : forallb (fun k => is_digit (ascii_of_N (Z.to_N (48 + k)))) (seqZ 0 10)
                 = true) by (vm_compute; reflexivity).
  rewrite forallb_forall in Hall. apply (Hall (n mod 10)).
  apply list_elem_of_In, elem_of_seqZ. pose proof (Z.mod_pos_bound n 10). lia.
Qed.

Lemma is_space_digit (c : ascii) : is_digit c = true → is_space c = false.
Proof.
  destruct c as [[] [] [] [] [] [] [] []]; intros H;
    first [reflexivity | vm_compute in H; discriminate H].
Qed.

Lemma zfill4_chars (n : Z) :
  zfill 4 n = String (digit_char (n / 10 / 10 / 10))
                (String (digit_char (n / 10 / 10))
                   (String (digit_char (n / 10)) (String (digit_char n) ""))).
Proof. reflexivity. Qed.

Lemma zfill2_chars (n : Z) :
  zfill 2 n = String (digit_char (n / 10)) (String (digit_char n) "").
Proof. reflexivity. Qed.

Lemma rmatch_year (a b c e : ascii) (rest : string) :
  is_digit a = true → is_digit b = true → is_digit c = true → is_digit e = true →
  rmatch year_re (String a (String b (String c (String e rest))))
  = [(String a (String b (String c (String e ""))), rest)].
Proof.
  intros Ha Hb Hc He. unfold year_re, digit.
  cbn [rmatch mbind list_bind]. rewrite Ha. cbn [flat_map app rmatch mbind list_bind].
  rewrite Hb. cbn [flat_map app rmatch mbind list_bind]. rewrite Hc.
  cbn [flat_map app rmatch mbind list_bind]. rewrite He. reflexivity.
Qed.

Lemma list_bind_nil {A B} (f : A → list B) : [] ≫= f = [].
Proof. reflexivity. Qed.

Lemma iso_pattern :
  pattern false "%Y-%m-%d" = inr ((Some "Y", year_re) :: iso_items_rest).
Proof. vm_compute. reflexivity. Qed.

Lemma iso_rest_all (m d : Z) :
  1 ≤ m ≤ 12 → 1 ≤ d ≤ 31 → iso_rest_ok (m, d) = true.
Proof.
  intros Hm Hd.
  assert (Hall : forallb (fun m => forallb (fun d => iso_rest_ok (m, d)) (seqZ 1 31))
                   (seqZ 1 12) = true) by (vm_compute; reflexivity).
  rewrite forallb_forall in Hall.
  assert (Hrow := Hall m). rewrite forallb_forall in Hrow.
  apply Hrow; apply list_elem_of_In, elem_of_seqZ; lia.
Qed.

Lemma run_iso (y m d : Z) :
  1000 ≤ y ≤ 9999 → 1 ≤ m ≤ 12 → 1 ≤ d ≤ 31 →
  ∃ others,
    run ((Some "Y", year_re) :: iso_items_rest) (strftime_iso (Date y m d)) ∅
    = (put_all (<["Y" := zfill 4 y]> ∅) [("m", zfill 2 m); ("d", zfill 2 d)], "")
        :: others.
Proof.
  intros Hy Hm Hd. unfold strftime_iso. cbn [year month day].
  rewrite decimal_zfill4 by lia.
  pose proof (iso_rest_all m d Hm Hd) as Hok. unfold iso_rest_ok in Hok.
  apply bool_decide_eq_true in Hok. cbn [fst snd] in Hok.
  set (tail_text := "-" ++ zfill 2 m ++ "-" ++ zfill 2 d) in *.
  rewrite zfill4_chars, !append_cons.
  replace ("" ++ tail_text) with tail_text by done.
  cbn [run]. rewrite rmatch_year by apply is_digit_digit_char.
  rewrite bind_cons, list_bind_nil, app_nil_r, run_run_binds.
  destruct (run_binds iso_items_rest tail_text) as [|first others]; [discriminate|].
  injection Hok as ->. rewrite fmap_cons. rewrite <- zfill4_chars. by eexists.
Qed.

Lemma make_date_of_valid (d : date) :
  valid_date d → make_date (year d) (month d) (day d) = inr d.
Proof.
  intros (Hy & Hm & Hd). unfold make_date. destruct d as [y m d'].
  cbn [year month day] in *.
  case_match eqn:Hc; [done|]. exfalso.
  rewrite !andb_false_iff, !Z.leb_gt in Hc. lia.
Qed.

(** The ISO format reads back what [strftime_iso] wrote. *)
Lemma strptime_iso (d : date) :
  valid_date d → 1000 ≤ year d → strptime (strftime_iso d) "%Y-%m-%d" = inr d.
Proof.
  intros Hv H1000. destruct (valid_date_ranges d Hv) as (Hy & Hm & Hd).
  unfold strptime. rewrite iso_pattern. cbn [mbind result_bind].
  destruct d as [y m d']. cbn [year month day] in *.
  destruct (run_iso y m d' ltac:(lia) Hm Hd) as [others ->].
  cbn [negb String.eqb put_all foldl].
  unfold group_or.
  set (found := <["d":=zfill 2 d']> (<["m":=zfill 2 m]> (<["Y":=zfill 4 y]> ∅))).
  assert (found !! "Y" = Some (zfill 4 y)) as -> by (subst found; by simplify_map_eq).
  assert (found !! "m" = Some (zfill 2 m)) as -> by (subst found; by simplify_map_eq).
  assert (found !! "d" = Some (zfill 2 d')) as -> by (subst found; by simplify_map_eq).
  assert (found !! "B" = None) as -> by (subst found; by simplify_map_eq).
  assert (found !! "b" = None) as -> by (subst found; by simplify_map_eq).
  cbn [mbind result_bind mret result_ret].
  pose proof (zfill4_ok y Hy) as H4. pose proof (zfill2_ok m ltac:(lia)) as H2.
  pose proof (zfill2_ok d' Hd) as H2'. unfold zfill_ok in *.
  apply andb_true_iff in H4 as [_ ->%Z.eqb_eq].
  apply andb_true_iff in H2 as [_ ->%Z.eqb_eq].
  apply andb_true_iff in H2' as [_ ->%Z.eqb_eq].
  by apply (make_date_of_valid (Date y m d')).
Qed.

Lemma month_name_not_digit (a : ascii) (rest : string) :
  is_digit a = true →
  rmatch (seqToRE (tail f_month)) (String a rest) = []
  ∧ rmatch (seqToRE (tail a_month)) (String a rest) = [].
Proof.
  destruct a as [[] [] [] [] [] [] [] []]; intros H;
    first [vm_compute in H; discriminate H | split; vm_compute; reflexivity].
Qed.

Lemma month_formats_pattern :
  pattern false "%B %d, %Y"
  = inr ((Some "B", seqToRE (tail f_month)) :: tail (items_of "%B %d, %Y"))
  ∧ pattern false "%b %d, %Y"
    = inr ((Some "b", seqToRE (tail a_month)) :: tail (items_of "%b %d, %Y")).
Proof. split; vm_compute; reflexivity. Qed.

(** A text that starts with a digit is no date with a month name. *)
Lemma strptime_month_name_digit (a : ascii) (rest : string) :
  is_digit a = true →
  strptime (String a rest) "%B %d, %Y" = inl ValueError
  ∧ strptime (String a rest) "%b %d, %Y" = inl ValueError.
Proof.
  intros Ha. destruct (month_name_not_digit a rest Ha) as [HB Hb].
  destruct month_formats_pattern as [PB Pb].
  unfold strptime. rewrite PB, Pb. cbn [mbind result_bind run].
  by rewrite HB, Hb.
Qed.

Lemma spacefree_app (a b : string) :
  spacefree (a ++ b) = spacefree a && spacefree b.
Proof.
  induction a as [|c a IH]; [done|]. rewrite append_cons. cbn [spacefree].
  by rewrite IH, andb_assoc.
Qed.

Lemma strftime_iso_spacefree (d : date) :
  1000 ≤ year d ≤ 9999 → spacefree (strftime_iso d) = true.
Proof.
  intros Hy. unfold strftime_iso.
  rewrite decimal_zfill4 by lia.
  rewrite !spacefree_app, zfill4_chars, !zfill2_chars.
  cbn [spacefree].
  rewrite !(is_space_digit _ (is_digit_digit_char _)). reflexivity.
Qed.

Lemma parse_date_iso (d : date) :
  valid_date d → 1000 ≤ year d →
  parse_date (strftime_iso d) = inr (Some (strftime_iso d)).
Proof.
  intros Hv H1000. destruct (valid_date_ranges d Hv) as (Hy & _ & _).
  unfold parse_date.
  rewrite (spacefree_strip _ (strftime_iso_spacefree d ltac:(lia))).
  apply (parse_date_loop_first _ _ 2%nat "%Y-%m-%d"); [done|by apply strptime_iso|].
  intros j fmt' Hj Hl.
  assert (Hhead : ∃ a rest, strftime_iso d = String a rest ∧ is_digit a = true).
  { unfold strftime_iso.
    destruct (decimal_year_facts (year d) Hy) as (_ & _ & _ & _ & c & rest & -> & Hc).
    exists c, (rest ++ "-" ++ zfill 2 (month d) ++ "-" ++ zfill 2 (day d)).
    split; [by rewrite append_cons|done]. }
  destruct Hhead as (a & rest & -> & Ha).
  destruct (strptime_month_name_digit a rest Ha) as [HB Hb].
  destruct j as [|[|j]]; [| |lia]; injection Hl as <-; by eexists.
Qed.

End IsoRoundTrip.

(** X8. Round trip: every date of the calendar from the year 1000 on,
    written as YYYY-MM-DD, is read by [parse_date] as that same date and
    returned unchanged. *)
Theorem parse_date_iso_round_trip (d : Strptime.date) :
  valid_date d → 1000 ≤ Strptime.year d →
  parses_as (Strptime.strftime_iso d) "%Y-%m-%d" d
  ∧ parse_date (Strptime.strftime_iso d) = inr (Some (Strptime.strftime_iso d)).
Proof.
  intros Hv H1000. split; [|by apply parse_date_iso].
  destruct (valid_date_ranges d Hv) as (Hy & _ & _).
  unfold parses_as.
  rewrite (spacefree_strip _ (strftime_iso_spacefree d ltac:(lia))).
  by apply strptime_iso.
Qed.

Lemma parse_date_iso_round_trip_witness :
  parse_date "2000-02-29" = inr (Some "2000-02-29").
Proof.
  apply (parse_date_iso_round_trip (Strptime.Date 2000 2 29)).
  - unfold valid_date. vm_compute. intuition discriminate.
  - vm_compute. discriminate.
Defined.

(** X9. A date of ten characters that [parse_date] returned is returned as
    it is when parsed again.  (A returned date of fewer characters comes
    from a year below 1000 and is left aside.) *)
Theorem parse_date_idempotent (text r : string) :
  parse_date text = inr (Some r) → String.length r = 10%nat →
  parse_date r = inr (Some r).
Proof.
  intros (fmt & d & _ & Hd & ->)%parse_date_loop_Some Hlen.
  pose proof (strptime_valid_date _ _ _ Hd) as Hv.
  destruct (valid_date_ranges d Hv) as (Hy & _ & _).
  destruct (decimal_year_facts _ Hy) as (_ & _ & Hfour & _).
  apply parse_date_iso; [done|]. apply Hfour.
  rewrite (strftime_iso_length d Hv) in Hlen. lia.
Qed.

Lemma parse_date_idempotent_witness :
  parse_date "2024-01-02" = inr (Some "2024-01-02").
Proof.
  apply (parse_date_idempotent "01/02/2024"); vm_compute; reflexivity.
Defined.

(* ===================================================================== *)
(** * Further properties of the extracted records *)
(* ===================================================================== *)

Section MoreExtractFacts.
Import PyStr.

Lemma absolute_url_http (u : string) : startswith "http" (absolute_url u) = true.
Proof.
  unfold absolute_url. destruct (startswith "http" u) eqn:Hu; cbn [negb]; [done|].
  apply (startswith_trans "http" SITE_ORIGIN); [reflexivity|apply startswith_app].
Qed.

Lemma absolute_image_http (u : string) :
  absolute_image u = "" ∨ startswith "http" (absolute_image u) = true.
Proof.
  unfold absolute_image. destruct (String.eqb_spec u "") as [->|Hne]; [by left|].
  right. destruct (startswith "http" u) eqn:Hu; cbn [negb andb]; [done|].
  apply (startswith_trans "http" SITE_ORIGIN); [reflexivity|apply startswith_app].
Qed.

Lemma extract_tags_nonempty (card : node) (title excerpt : string) :
  extract_tags card title excerpt ≠ [].
Proof.
  intros H. assert (Hd : "databases" ∈ extract_tags card title excerpt)
    by (apply extract_tags_elem; by left).
  rewrite H in Hd. by apply elem_of_nil in Hd.
Qed.

Lemma startswith_take (n : nat) (s : string) : startswith (take n s) s = true.
Proof.
  revert s. induction n as [|n IH]; intros [|c s]; cbn [take startswith];
    try reflexivity.
  rewrite Ascii.eqb_refl. apply IH.
Qed.

Lemma take_idem (n : nat) (s : string) : take n (take n s) = take n s.
Proof.
  revert s. induction n as [|n IH]; intros [|c s]; cbn [take]; try reflexivity.
  by rewrite IH.
Qed.

Lemma take_S_nil (n : nat) (s : string) : take (S n) s = "" → s = "".
Proof. destruct s; [reflexivity|discriminate]. Qed.

Lemma BlogPost_init_tags (t u : string) (d i : option string) (e : string)
    (tg : list string) :
  tg ≠ [] → tags (BlogPost_init t u d i e tg) = tg.
Proof. by destruct tg. Qed.

End MoreExtractFacts.

(** X10. In every extracted record the URL starts with "http", so making it
    absolute again changes nothing; the image is absent, the empty string,
    or starts with "http". *)
Theorem extracted_urls_start_with_http (card : node) (post : BlogPost) :
  extract_post_data card = Some post →
  PyStr.startswith "http" (url post) = true
  ∧ absolute_url (url post) = url post
  ∧ match image post with
    | None => True
    | Some v => v = "" ∨ PyStr.startswith "http" v = true
    end.
Proof.
  intros (t & l & u & _ & _ & _ & ->)%extract_post_data_Some.
  cbn [url image BlogPost_init]. split_and!.
  - apply absolute_url_http.
  - unfold absolute_url at 1. by rewrite absolute_url_http.
  - destruct (image_src card) as [v|]; [|done]. apply absolute_image_http.
Qed.

Lemma extracted_urls_start_with_http_witness :
  ∃ post, extract_post_data untitled_card = Some post
          ∧ PyStr.startswith "http" (url post) = true
          ∧ image post = Some "".
Proof.
  pose (post := default (BlogPost_init "" "" None None "" [])
                  (extract_post_data untitled_card)).
  assert (Hpost : extract_post_data untitled_card = Some post)
    by (vm_compute; reflexivity).
  destruct (extracted_urls_start_with_http untitled_card post Hpost) as (Hurl & _ & _).
  exists post. split_and!; [exact Hpost|exact Hurl|vm_compute; reflexivity].
Defined.

(** X11. The tags of an extracted record are those of its title and of the
    whole excerpt text, also of what lies beyond the 200 characters the
    record keeps: they contain "databases", are sorted and without
    duplicates, and a keyword anywhere in the title or the excerpt text
    gives its label. *)
Theorem extracted_tags_from_full_excerpt (card : node) (post : BlogPost) :
  extract_post_data card = Some post →
  tags post = extract_tags card (title post) (excerpt_text card)
  ∧ "databases" ∈ tags post
  ∧ NoDup (tags post)
  ∧ StronglySorted String.le (tags post)
  ∧ (∀ label kws k,
       (label, kws) ∈ tag_keywords → k ∈ kws →
       substr k (PyStr.lower (title post ++ " " ++ excerpt_text card)) →
       label ∈ tags post).
Proof.
  intros (t & l & u & _ & _ & _ & ->)%extract_post_data_Some.
  cbn [title]. rewrite BlogPost_init_tags by apply extract_tags_nonempty.
  split_and!; [done| | | |].
  - apply extract_tags_elem. by left.
  - unfold extract_tags. rewrite merge_sort_Permutation. apply NoDup_elements.
  - unfold extract_tags. apply StronglySorted_merge_sort; apply _.
  - intros label kws k Hin Hk Hsub. apply extract_tags_elem. right.
    by exists kws, k.
Qed.

Lemma extracted_tags_from_full_excerpt_witness :
  ∃ post, extract_post_data late_keyword_card = Some post
          ∧ PyStr.contains "cloud" (PyStr.lower (excerpt post)) = false
          ∧ "cloud" ∈ tags post.
Proof.
  pose (post := default (BlogPost_init "" "" None None "" [])
                  (extract_post_data late_keyword_card)).
  assert (Hpost : extract_post_data late_keyword_card = Some post)
    by (vm_compute; reflexivity).
  destruct (extracted_tags_from_full_excerpt late_keyword_card post Hpost)
    as (_ & _ & _ & _ & Hkw).
  exists post. split_and!; [exact Hpost|vm_compute; reflexivity|].
  apply (Hkw "cloud" ["cloud"; "aws"; "gcp"; "azure"] "cloud").
  - unfold tag_keywords. do 5 right. by left.
  - by left.
  - apply contains_iff. vm_compute. reflexivity.
Defined.

(** X12. Whatever its arguments, the constructor gives a record with at
    least one tag (an empty tag list becomes the default ["databases"]) and
    an excerpt of at most 200 characters, and building a record again from
    the fields of a built record gives the same record. *)
Theorem BlogPost_init_invariants (t u : string) (d i : option string) (e : string)
    (tg : list string) :
  let post := BlogPost_init t u d i e tg in
  tags post ≠ []
  ∧ tags (BlogPost_init t u d i e []) = ["databases"]
  ∧ (String.length (excerpt post) ≤ 200)%nat
  ∧ PyStr.startswith (excerpt post) e = true
  ∧ BlogPost_init (title post) (url post) (date post) (image post)
      (excerpt post) (tags post) = post.
Proof.
  cbn zeta.
  assert (Hdef : elements DEFAULT_TAGS = ["databases"]) by (vm_compute; reflexivity).
  split_and!.
  - cbn [tags BlogPost_init]. rewrite Hdef. destruct tg; discriminate.
  - cbn [tags BlogPost_init]. exact Hdef.
  - cbn [excerpt BlogPost_init]. unfold EXCERPT_MAX_LENGTH.
    destruct (String.eqb e ""); [simpl; lia|]. rewrite length_take. lia.
  - cbn [excerpt BlogPost_init].
    destruct (String.eqb e ""); [reflexivity|apply startswith_take].
  - unfold BlogPost_init. cbn [title url date image excerpt tags].
    rewrite !Hdef. f_equal.
    + destruct (String.eqb_spec e "") as [->|Hne]; [reflexivity|].
      destruct (String.eqb_spec (PyStr.take EXCERPT_MAX_LENGTH e) "") as [Hnil|_].
      * apply take_S_nil in Hnil. contradiction.
      * apply take_idem.
    + destruct tg; reflexivity.
Qed.

Section TidyFacts.
Import PyStr.

Lemma lstrip_head (s : string) :
  match lstrip s with
  | "" => True
  | String c _ => is_space c = false
  end.
Proof.
  induction s as [|c s IH]; [done|]. cbn [lstrip].
  by destruct (is_space c) eqn:Hc.
Qed.

Lemma rstrip_idem (s : string) : rstrip (rstrip s) = rstrip s.
Proof.
  induction s as [|c s IH]; [done|]. cbn [rstrip].
  destruct (rstrip s) as [|c' r] eqn:Hr.
  - destruct (is_space c) eqn:Hc; [done|]. cbn [rstrip]. by rewrite Hc.
  - cbn [rstrip]. cbn [rstrip] in IH. by rewrite IH.
Qed.

Lemma strip_tidy (s : string) : tidy (strip s).
Proof.
  unfold strip, tidy. split; [|apply rstrip_idem].
  pose proof (lstrip_head s) as Hh. destruct (lstrip s) as [|c r]; [done|].
  by rewrite rstrip_cons_nonspace.
Qed.

Lemma tidy_strip (s : string) : tidy s → strip s = s.
Proof.
  intros [Hh Hr]. unfold strip. destruct s as [|c r]; [done|].
  cbn [lstrip]. by rewrite Hh.
Qed.

Lemma rstrip_app_nonempty (a b : string) :
  rstrip b ≠ "" → rstrip (a ++ b) = a ++ rstrip b.
Proof.
  intros Hb. induction a as [|c a IH]; [done|].
  rewrite !append_cons. cbn [rstrip]. rewrite IH.
  destruct (a ++ rstrip b) eqn:Hab; [|done].
  destruct a; [|discriminate]. by destruct Hb.
Qed.

Lemma tidy_app (a b : string) : tidy a → tidy b → b ≠ "" → tidy (a ++ b).
Proof.
  intros [Ha Hra] [Hb Hrb] Hne. destruct a as [|c a]; [done|].
  split; [done|]. rewrite rstrip_app_nonempty by (by rewrite Hrb).
  by rewrite Hrb.
Qed.

Lemma join_tidy (l : list string) :
  Forall (fun x => tidy x ∧ x ≠ "") l →
  tidy (join "" l) ∧ (l ≠ [] → join "" l ≠ "").
Proof.
  induction 1 as [|x l [Hx Hne] Hall [IHt IHn]]; [done|].
  cbn [join]. destruct l as [|y l]; [done|].
  replace ("" ++ join "" (y :: l)) with (join "" (y :: l)) by done.
  split.
  - apply tidy_app; [done..|]. by apply IHn.
  - intros _. destruct x; [done|discriminate].
Qed.

Lemma stripped_strings_tidy (n : node) :
  Forall (fun x => tidy x ∧ x ≠ "") (Soup.stripped_strings n).
Proof.
  unfold Soup.stripped_strings. apply Forall_forall. intros x Hx.
  apply list_elem_of_omap in Hx as (d & _ & Hd).
  destruct d as [t|]; [|discriminate].
  destruct (String.eqb_spec (strip t) "") as [|Hne]; [discriminate|].
  injection Hd as <-. split; [apply strip_tidy|done].
Qed.

Lemma get_text_tidy (n : node) : tidy (Soup.get_text n).
Proof. apply join_tidy, stripped_strings_tidy. Qed.

Lemma lstrip_take_tidy (k : nat) (s : string) : tidy s → lstrip (take k s) = take k s.
Proof.
  intros [Hh _]. destruct k, s; try done. cbn [take lstrip]. by rewrite Hh.
Qed.

End TidyFacts.

(** X13. The title of an extracted record has no whitespace at either end
    (stripping it changes nothing), and its excerpt has none in front; the
    excerpt may end in whitespace where the cut at 200 characters falls
    inside the text. *)
Theorem extracted_title_stripped (card : node) (post : BlogPost) :
  extract_post_data card = Some post →
  PyStr.strip (title post) = title post
  ∧ PyStr.lstrip (excerpt post) = excerpt post.
Proof.
  intros (t & l & u & _ & _ & _ & ->)%extract_post_data_Some.
  cbn [title excerpt BlogPost_init]. split.
  - apply tidy_strip, get_text_tidy.
  - destruct (String.eqb (excerpt_text card) ""); [done|].
    apply lstrip_take_tidy. unfold excerpt_text.
    destruct (excerpt_elem card); [apply get_text_tidy|done].
Qed.

Lemma extracted_title_stripped_witness :
  ∃ post, extract_post_data sample_card = Some post
          ∧ PyStr.strip (title post) = title post
          ∧ title post = "Multi-region replication deep dive".
Proof.
  pose (post := default (BlogPost_init "" "" None None "" [])
                  (extract_post_data sample_card)).
  assert (Hpost : extract_post_data sample_card = Some post)
    by (vm_compute; reflexivity).
  destruct (extracted_title_stripped sample_card post Hpost) as (Ht & _).
  exists post. split_and!; [exact Hpost|exact Ht|vm_compute; reflexivity].
Defined.

(** X14. The extractor looks only below the card: the card's own tag name
    and attributes play no part in what is extracted. *)
Theorem extract_post_data_below_card (name name' : string)
    (attrs attrs' : gmap string string) (contents : list node) :
  extract_post_data (Tag name attrs contents)
  = extract_post_data (Tag name' attrs' contents).
Proof.
  rewrite !extract_post_data_eq. reflexivity.
Qed.


(* ===================================================================== *)
(** * Further properties of the scraper and of main *)
(* ===================================================================== *)

(** X15. The scrape loop works card by card: the records of a list of
    cards are the records of the cards before a card, then that card's
    record if it has one, then the records of the cards after it.  A card
    that is skipped leaves the other records as they are, and a card that is
    extracted adds exactly one. *)
Theorem scrape_loop_card_by_card (before after : list node) (card : node) :
  scrape_loop (before ++ card :: after)
  = (scrape_loop before ++ option_list (extract_post_data card)
     ++ scrape_loop after)%list
  ∧ scrape_loop (before ++ after) = (scrape_loop before ++ scrape_loop after)%list
  ∧ (extract_post_data card = None →
     scrape_loop (before ++ card :: after) = scrape_loop (before ++ after))
  ∧ (is_Some (extract_post_data card) →
     length (scrape_loop (before ++ card :: after))
     = S (length (scrape_loop (before ++ after)))).
Proof.
  rewrite !scrape_loop_omap, !omap_app. cbn [omap list_omap].
  split_and!; [|done| |].
  - by destruct (extract_post_data card).
  - by intros ->.
  - intros [post ->]. rewrite !length_app. simpl. lia.
Qed.

Lemma scrape_loop_card_by_card_witness :
  scrape_loop ([sample_card] ++ no_link_card :: [absolute_card])
  = scrape_loop ([sample_card] ++ [absolute_card]).
Proof.
  apply (scrape_loop_card_by_card [sample_card] [absolute_card] no_link_card).
  vm_compute. reflexivity.
Defined.

(** X16. The number of records scraped from a list of cards is the number
    of cards that have both a title element and a hyperlink with an href
    attribute; it never exceeds the number of cards. *)
Theorem scrape_loop_count (cards : list node) :
  length (scrape_loop cards)
  = length (filter (fun c => is_Some (title_elem c) ∧ is_Some (link_elem c)) cards)
  ∧ (length (scrape_loop cards) ≤ length cards)%nat.
Proof.
  rewrite scrape_loop_omap.
  assert (Hcount : length (omap extract_post_data cards)
    = length (filter (fun c => is_Some (title_elem c) ∧ is_Some (link_elem c)) cards)).
  { induction cards as [|c cards IH]; [done|]. cbn [omap list_omap].
    rewrite extract_post_data_eq.
    destruct (title_elem c) as [t|] eqn:Ht, (link_elem c) as [l|] eqn:Hl.
    - rewrite filter_cons_True by (rewrite Ht, Hl; split; by eexists).
      simpl. by rewrite IH.
    - rewrite filter_cons_False by (rewrite Hl; intros [_ [? ?]]; done). done.
    - rewrite filter_cons_False by (rewrite Ht; intros [[? ?] _]; done). done.
    - rewrite filter_cons_False by (rewrite Ht; intros [[? ?] _]; done). done. }
  split; [done|]. rewrite Hcount. apply length_filter.
Qed.

(** X17. The scraper fails exactly when the fetch failed, when the
    response has an error status (400 to 599), or when the parser rejected
    the markup of a response without error status, and it raises that very
    error unmodified; no card, whatever its markup, makes it fail. *)
Theorem scrape_failures_are_fetch_failures (env : Env) (fetched : result Response)
    (e : exn) :
  scrape_crl_author_page env fetched = inl e
  ↔ fetched = inl e
    ∨ (∃ response, fetched = inr response
                   ∧ 400 ≤ status_code response < 600
                   ∧ e = HTTPError (status_code response))
    ∨ (∃ response, fetched = inr response
                   ∧ ¬ (400 ≤ status_code response < 600)
                   ∧ html_parser env (content response) = inl e).
Proof.
  unfold scrape_crl_author_page, fetch, raise_for_status.
  destruct fetched as [e'|response]; cbn [mbind result_bind mret result_ret].
  - split; [intros [= ->]; by left|].
    intros [[= ->]|[(? & [=] & _)|(? & [=] & _)]]. done.
  - destruct (Z.leb_spec 400 (status_code response));
      destruct (Z.ltb_spec (status_code response) 600);
      cbn [andb mbind result_bind mret result_ret raise].
    + split.
      * intros [= <-]. right. left. exists response. split_and!; [done|lia|lia|done].
      * intros [[=]|[(r & [= <-] & _ & ->)|(r & [= <-] & Hno & _)]]; [done|lia].
    + destruct (html_parser env (content response)) as [e'|soup] eqn:Hp;
        cbn [mbind result_bind mret result_ret].
      * split.
        -- intros [= <-]. right. right. exists response. split_and!; [done|lia|done].
        -- intros [[=]|[(r & [= <-] & ? & _)|(r & [= <-] & _ & Hq)]]; [lia|].
           congruence.
      * split; [discriminate|].
        intros [[=]|[(r & [= <-] & ? & _)|(r & [= <-] & _ & Hq)]]; [lia|].
        congruence.
    + destruct (html_parser env (content response)) as [e'|soup] eqn:Hp;
        cbn [mbind result_bind mret result_ret].
      * split.
        -- intros [= <-]. right. right. exists response. split_and!; [done|lia|done].
        -- intros [[=]|[(r & [= <-] & ? & _)|(r & [= <-] & _ & Hq)]]; [lia|].
           congruence.
      * split; [discriminate|].
        intros [[=]|[(r & [= <-] & ? & _)|(r & [= <-] & _ & Hq)]]; [lia|].
        congruence.
    + destruct (html_parser env (content response)) as [e'|soup] eqn:Hp;
        cbn [mbind result_bind mret result_ret].
      * split.
        -- intros [= <-]. right. right. exists response. split_and!; [done|lia|done].
        -- intros [[=]|[(r & [= <-] & ? & _)|(r & [= <-] & _ & Hq)]]; [lia|].
           congruence.
      * split; [discriminate|].
        intros [[=]|[(r & [= <-] & ? & _)|(r & [= <-] & _ & Hq)]]; [lia|].
        congruence.
Qed.

(** X19. The dictionary of a post loses nothing: two posts with the same
    dictionary are the same post (an absent date or image stays distinct
    from an empty one).  Its keys are always the same seven, each once, in
    the order of the output, and the source is always "cockroach-labs". *)
Theorem to_dict_faithful (p q : BlogPost) :
  (to_dict p = to_dict q ↔ p = q)
  ∧ (to_dict p).*1 = ["title"; "url"; "date"; "image"; "excerpt"; "source"; "tags"]
  ∧ NoDup (to_dict p).*1
  ∧ (∀ v, ("source", v) ∈ to_dict p → v = JString "cockroach-labs").
Proof.
  split_and!.
  - split; [|by intros ->]. destruct p as [t u d i e tg], q as [t' u' d' i' e' tg'].
    unfold to_dict. cbn [title url date image excerpt tags].
    intros [= -> -> Hd Hi -> ->].
    destruct d, d'; try discriminate; destruct i, i'; try discriminate;
      cbn in Hd, Hi; congruence.
  - reflexivity.
  - change (NoDup ["title"; "url"; "date"; "image"; "excerpt"; "source"; "tags"]).
    compute_done.
  - intros v Hin. unfold to_dict in Hin.
    repeat (apply elem_of_cons in Hin as [[=]|Hin]; subst; try done).
    by apply elem_of_nil in Hin.
Qed.

(** X21. The date of an extracted record is absent or a date of the
    calendar written as year, two-digit month and two-digit day joined by
    hyphens; it is absent when the card has no date element or the element
    has no text. *)
Theorem extracted_date_valid (card : node) (post : BlogPost) :
  extract_post_data card = Some post →
  (date post = None
   ∨ ∃ d, valid_date d ∧ date post = Some (Strptime.strftime_iso d)
          ∧ ymd_format (Strptime.strftime_iso d) d)
  ∧ (date_elem card = None → date post = None)
  ∧ (∀ e, date_elem card = Some e → Soup.get_text e = "" → date post = None).
Proof.
  intros (t & l & u & _ & _ & _ & ->)%extract_post_data_Some.
  cbn [date BlogPost_init]. unfold published_date. split_and!.
  - destruct (Soup.get_text <$> date_elem card) as [ds|]; [|by left].
    destruct (String.eqb ds ""); [by left|].
    destruct (parse_date ds) as [e|[r|]] eqn:Hp; [by left| |by left].
    right. apply parse_date_loop_Some in Hp as (fmt & d & _ & Hd & ->).
    pose proof (strptime_valid_date _ _ _ Hd) as Hv. exists d.
    split_and!; [done..|].
    destruct (valid_date_ranges d Hv) as (? & ? & ?).
    by apply strftime_ymd_format.
  - by intros ->.
  - intros e -> He. cbn [fmap option_fmap option_map]. by rewrite He.
Qed.

Lemma extracted_date_valid_witness :
  ∃ post, extract_post_data sample_card = Some post
          ∧ date post = Some "2024-01-15"
          ∧ (date post = None
             ∨ ∃ d, valid_date d ∧ date post = Some (Strptime.strftime_iso d)
                    ∧ ymd_format (Strptime.strftime_iso d) d).
Proof.
  pose (post := default (BlogPost_init "" "" None None "" [])
                  (extract_post_data sample_card)).
  assert (Hpost : extract_post_data sample_card = Some post)
    by (vm_compute; reflexivity).
  destruct (extracted_date_valid sample_card post Hpost) as (Hd & _ & _).
  exists post. split_and!; [exact Hpost|vm_compute; reflexivity|exact Hd].
Defined.
